(** * The Axilrod-Teller three-body force kernel

    A shallow embedding of [AxilrodTellerForceKernel<TTree, TBound>]
    (fastlib2/contrib/dongryel/multibody/multibody_kernel.h) and the
    properties of its pruning engine.

    Conventions of the embedding.
    - [double] is a type parameter [D] carrying the operations the kernel
      applies to it.  The instance [binary64] is IEEE-754 double precision
      (Rocq's primitive floats): it is what the compiled kernel computes.
      The instance [exactQ] is exact rational arithmetic; it only offers the
      field operations and the comparison, and is used where a property is
      one of the arithmetic and not of its rounding.
      The instance [exactR] is exact real arithmetic, with the square root;
      it is used in the same way for the gradient bounds and the sampled
      variances.
    - [index_t] is [Z]; the width of [index_t] is fixed outside the kernel and
      no wrap-around is modelled.
    - a [TTree *] is an address; the nodes live in a heap, a total map from
      addresses to nodes.  Two slots alias when their addresses are equal,
      which is the pointer comparison of the source.
    - a member function that writes the kernel's members or the nodes takes
      the kernel state and the heap and returns the new ones. *)

From Stdlib Require Import ZArith QArith Qabs Floats Uint63 List Lia Bool.
From Stdlib Require Import Permutation Lqa.
From Stdlib Require Reals Lra.
Import ListNotations.

Set Implicit Arguments.
Close Scope Q_scope.

(** ** Arithmetic of [double] *)

(** The field operations and the comparison used by the pruning test and by
    the propagation: [+ - * /], [fabs], [<=], the conversion of an [index_t]
    operand and the literal [0.5]. *)
Class Arith (D : Type) : Type := {
  of_int : Z -> D;
  half : D;
  add : D -> D -> D;
  sub : D -> D -> D;
  mul : D -> D -> D;
  div : D -> D -> D;
  fabs : D -> D;
  leb : D -> D -> bool
}.

(** What the gradient bounds and the sampling loop need on top of it:
    [sqrt], [==], [<] (through [std::min] and [std::max]), [isnan], [isinf],
    [DBL_MAX] and the literal of [AXILROD_TELLER_COEFF]. *)
Class Libm (D : Type) : Type := {
  sqrt : D -> D;
  eqb : D -> D -> bool;
  ltb : D -> D -> bool;
  isnan : D -> bool;
  isinf : D -> bool;
  DBL_MAX : D;
  AXILROD_TELLER_COEFF : D
}.

Declare Scope dbl_scope.
Delimit Scope dbl_scope with dbl.
Notation "x + y" := (add x y) : dbl_scope.
Notation "x - y" := (sub x y) : dbl_scope.
Notation "x * y" := (mul x y) : dbl_scope.
Notation "x / y" := (div x y) : dbl_scope.
Notation "x <=? y" := (leb x y) (at level 70, no associativity) : dbl_scope.
Notation "x <? y" := (ltb x y) (at level 70, no associativity) : dbl_scope.
Notation "x =? y" := (eqb x y) (at level 70, no associativity) : dbl_scope.

(** IEEE-754 binary64. *)
Definition float_of_int (z : Z) : float :=
  if (z <? 0)%Z
  then PrimFloat.opp (PrimFloat.of_uint63 (Uint63.of_Z (- z)))
  else PrimFloat.of_uint63 (Uint63.of_Z z).

#[export] Instance binary64 : Arith float := {
  of_int := float_of_int;
  half := 0x1p-1%float;
  add := PrimFloat.add;
  sub := PrimFloat.sub;
  mul := PrimFloat.mul;
  div := PrimFloat.div;
  fabs := PrimFloat.abs;
  leb := PrimFloat.leb
}.

#[export] Instance binary64_libm : Libm float := {
  sqrt := PrimFloat.sqrt;
  eqb := PrimFloat.eqb;
  ltb := PrimFloat.ltb;
  isnan := PrimFloat.is_nan;
  isinf := PrimFloat.is_infinity;
  DBL_MAX := 0x1.fffffffffffffp+1023%float;
  AXILROD_TELLER_COEFF := 0x1.2725dd1d243acp-60%float
}.

(** Exact rational arithmetic. *)
#[export] Instance exactQ : Arith Q := {
  of_int := inject_Z;
  half := (1 # 2)%Q;
  add := Qplus;
  sub := Qminus;
  mul := Qmult;
  div := Qdiv;
  fabs := Qabs;
  leb := Qle_bool
}.

(** ** Vectors, statistics, nodes and the heap *)

Definition Vector (D : Type) : Type := list D.

(** The three-element [ArrayList]s of the kernel: [tree_nodes], [indices]
    and [index_orders_] are only ever read and written at 0, 1 and 2. *)
Record ArrayList3 (A : Type) : Type := MkArrayList3 {
  at0 : A;
  at1 : A;
  at2 : A
}.

Definition ptr : Type := positive.

(** Modelled from the spec: the statistics class of a tree node is declared
    with the tree, outside the kernel's file.  These are the members the
    kernel names: per signed part the accumulated bound of the first
    gradient component (a scalar) and of the second (a vector), the
    coordinate sum with its L1 norm, and the postponed accumulators ([_e]
    estimate, [_u] upper bound, [_l] lower bound). *)
Record Statistics (D : Type) : Type := MkStatistics {
  negative_gradient1_u : D;
  positive_gradient1_l : D;
  negative_gradient2_u : Vector D;
  positive_gradient2_l : Vector D;
  l1_norm_coordinate_sum_ : D;
  coordinate_sum_ : Vector D;
  postponed_negative_gradient1_e : D;
  postponed_negative_gradient1_u : D;
  postponed_positive_gradient1_l : D;
  postponed_positive_gradient1_e : D;
  postponed_negative_gradient2_e : Vector D;
  postponed_negative_gradient2_u : Vector D;
  postponed_positive_gradient2_l : Vector D;
  postponed_positive_gradient2_e : Vector D
}.

(** Modelled from the spec: [TTree] is a template parameter; the kernel
    asks a node for [count()], [begin()], [end()], [bound()] and
    [stat()]. *)
Record TreeNode (D B : Type) : Type := MkTreeNode {
  count : Z;
  begin_ : Z;
  end_ : Z;
  bound : B;
  stat : Statistics D
}.

Definition Heap (D B : Type) : Type := ptr -> TreeNode D B.

(** Modelled from the spec: [TBound] is a template parameter; the kernel
    asks a bound for the minimum and the maximum squared distance to
    another bound. *)
Class Bound (D B : Type) : Type := {
  MinDistanceSq : B -> B -> D;
  MaxDistanceSq : B -> B -> D
}.

Section Store.
Context {D B : Type}.

Definition set_stat (s : Statistics D) (n : TreeNode D B) : TreeNode D B :=
    MkTreeNode (count n) (begin_ n) (end_ n) (bound n) s.

  (** [p->stat() = f (p->stat())] *)
Definition modify_stat (h : Heap D B) (p : ptr)
      (f : Statistics D -> Statistics D) : Heap D B :=
    fun q => if Pos.eqb q p then set_stat (f (stat (h q))) (h q) else h q.

  (** The eight members [Prune_] writes, as in-place updates. *)
Definition on_postponed_negative_gradient1_e (f : D -> D) (s : Statistics D) :=
    MkStatistics (negative_gradient1_u s) (positive_gradient1_l s)
      (negative_gradient2_u s) (positive_gradient2_l s)
      (l1_norm_coordinate_sum_ s) (coordinate_sum_ s)
      (f (postponed_negative_gradient1_e s)) (postponed_negative_gradient1_u s)
      (postponed_positive_gradient1_l s) (postponed_positive_gradient1_e s)
      (postponed_negative_gradient2_e s) (postponed_negative_gradient2_u s)
      (postponed_positive_gradient2_l s) (postponed_positive_gradient2_e s).

Definition on_postponed_negative_gradient1_u (f : D -> D) (s : Statistics D) :=
    MkStatistics (negative_gradient1_u s) (positive_gradient1_l s)
      (negative_gradient2_u s) (positive_gradient2_l s)
      (l1_norm_coordinate_sum_ s) (coordinate_sum_ s)
      (postponed_negative_gradient1_e s) (f (postponed_negative_gradient1_u s))
      (postponed_positive_gradient1_l s) (postponed_positive_gradient1_e s)
      (postponed_negative_gradient2_e s) (postponed_negative_gradient2_u s)
      (postponed_positive_gradient2_l s) (postponed_positive_gradient2_e s).

Definition on_postponed_positive_gradient1_l (f : D -> D) (s : Statistics D) :=
    MkStatistics (negative_gradient1_u s) (positive_gradient1_l s)
      (negative_gradient2_u s) (positive_gradient2_l s)
      (l1_norm_coordinate_sum_ s) (coordinate_sum_ s)
      (postponed_negative_gradient1_e s) (postponed_negative_gradient1_u s)
      (f (postponed_positive_gradient1_l s)) (postponed_positive_gradient1_e s)
      (postponed_negative_gradient2_e s) (postponed_negative_gradient2_u s)
      (postponed_positive_gradient2_l s) (postponed_positive_gradient2_e s).

Definition on_postponed_positive_gradient1_e (f : D -> D) (s : Statistics D) :=
    MkStatistics (negative_gradient1_u s) (positive_gradient1_l s)
      (negative_gradient2_u s) (positive_gradient2_l s)
      (l1_norm_coordinate_sum_ s) (coordinate_sum_ s)
      (postponed_negative_gradient1_e s) (postponed_negative_gradient1_u s)
      (postponed_positive_gradient1_l s) (f (postponed_positive_gradient1_e s))
      (postponed_negative_gradient2_e s) (postponed_negative_gradient2_u s)
      (postponed_positive_gradient2_l s) (postponed_positive_gradient2_e s).

Definition on_postponed_negative_gradient2_e
      (f : Vector D -> Vector D) (s : Statistics D) :=
    MkStatistics (negative_gradient1_u s) (positive_gradient1_l s)
      (negative_gradient2_u s) (positive_gradient2_l s)
      (l1_norm_coordinate_sum_ s) (coordinate_sum_ s)
      (postponed_negative_gradient1_e s) (postponed_negative_gradient1_u s)
      (postponed_positive_gradient1_l s) (postponed_positive_gradient1_e s)
      (f (postponed_negative_gradient2_e s)) (postponed_negative_gradient2_u s)
      (postponed_positive_gradient2_l s) (postponed_positive_gradient2_e s).

Definition on_postponed_negative_gradient2_u
      (f : Vector D -> Vector D) (s : Statistics D) :=
    MkStatistics (negative_gradient1_u s) (positive_gradient1_l s)
      (negative_gradient2_u s) (positive_gradient2_l s)
      (l1_norm_coordinate_sum_ s) (coordinate_sum_ s)
      (postponed_negative_gradient1_e s) (postponed_negative_gradient1_u s)
      (postponed_positive_gradient1_l s) (postponed_positive_gradient1_e s)
      (postponed_negative_gradient2_e s) (f (postponed_negative_gradient2_u s))
      (postponed_positive_gradient2_l s) (postponed_positive_gradient2_e s).

Definition on_postponed_positive_gradient2_l
      (f : Vector D -> Vector D) (s : Statistics D) :=
    MkStatistics (negative_gradient1_u s) (positive_gradient1_l s)
      (negative_gradient2_u s) (positive_gradient2_l s)
      (l1_norm_coordinate_sum_ s) (coordinate_sum_ s)
      (postponed_negative_gradient1_e s) (postponed_negative_gradient1_u s)
      (postponed_positive_gradient1_l s) (postponed_positive_gradient1_e s)
      (postponed_negative_gradient2_e s) (postponed_negative_gradient2_u s)
      (f (postponed_positive_gradient2_l s)) (postponed_positive_gradient2_e s).

Definition on_postponed_positive_gradient2_e
      (f : Vector D -> Vector D) (s : Statistics D) :=
    MkStatistics (negative_gradient1_u s) (positive_gradient1_l s)
      (negative_gradient2_u s) (positive_gradient2_l s)
      (l1_norm_coordinate_sum_ s) (coordinate_sum_ s)
      (postponed_negative_gradient1_e s) (postponed_negative_gradient1_u s)
      (postponed_positive_gradient1_l s) (postponed_positive_gradient1_e s)
      (postponed_negative_gradient2_e s) (postponed_negative_gradient2_u s)
      (postponed_positive_gradient2_l s) (f (postponed_positive_gradient2_e s)).

End Store.

(** ** Propagation and the pruning test *)

(** The twelve gradient bounds handed to [Prune_], the six component errors
    and the three pair counts handed to [Prunable_], under the names of the
    parameters. *)
Record GradientBounds (D : Type) : Type := MkGradientBounds {
  min_negative_gradient1 : D;
  max_negative_gradient1 : D;
  min_positive_gradient1 : D;
  max_positive_gradient1 : D;
  min_negative_gradient2 : D;
  max_negative_gradient2 : D;
  min_positive_gradient2 : D;
  max_positive_gradient2 : D;
  min_negative_gradient3 : D;
  max_negative_gradient3 : D;
  min_positive_gradient3 : D;
  max_positive_gradient3 : D
}.

Record GradientErrors (D : Type) : Type := MkGradientErrors {
  negative_gradient1_error : D;
  positive_gradient1_error : D;
  negative_gradient2_error : D;
  positive_gradient2_error : D;
  negative_gradient3_error : D;
  positive_gradient3_error : D
}.

Record PairCounts (D : Type) : Type := MkPairCounts {
  num_jk_pairs : D;
  num_ik_pairs : D;
  num_ij_pairs : D
}.

Section Pruning.
Context {D B : Type} `{Arith D}.
Local Open Scope dbl_scope.

  (** [L1Norm_]: [length = 0; for i: length += fabs(v[i])]. *)
Definition L1Norm_ (v : Vector D) : D :=
    fold_left (fun length x => length + fabs x) v (of_int 0).

  (** Modelled from the spec: [la::AddExpert(alpha, x, &y)] belongs to the
      linear-algebra library, which is not part of the kernel's file; it is
      the add-scaled-vector update [y += alpha * x], componentwise. *)
Fixpoint AddExpert (alpha : D) (x y : Vector D) : Vector D :=
    match x, y with
    | xi :: x', yi :: y' => (yi + alpha * xi) :: AddExpert alpha x' y'
    | _, _ => y
    end.

Section Prune.
Variable tree_nodes : ArrayList3 ptr.
Variable g : GradientBounds D.
Variable c : PairCounts D.

Let i := at0 tree_nodes.
Let j := at1 tree_nodes.
Let k := at2 tree_nodes.

(** A statement of [Prune_] updates one member of the statistics of a
    node; its right-hand side may read the heap. *)
Definition Statement : Type := Heap D B -> Statistics D -> Statistics D.

(** The statements of a block, executed in order on the statistics of the
    node [p]; each one reads the heap left by those before it. *)
Definition execute (p : ptr) (body : list Statement) (h : Heap D B)
    : Heap D B :=
  fold_left (fun h statement => modify_stat h p (statement h)) body h.

(** "First the i-th node." *)
Definition Prune_node0_body : list Statement :=
  [fun _ => on_postponed_negative_gradient1_e (fun v =>
     v + num_jk_pairs c * half *
         (min_negative_gradient1 g + max_negative_gradient1 g +
          min_negative_gradient2 g + max_negative_gradient2 g));
   fun _ => on_postponed_negative_gradient1_u (fun v =>
     v + num_jk_pairs c *
         (max_negative_gradient1 g + max_negative_gradient2 g));
   fun _ => on_postponed_positive_gradient1_l (fun v =>
     v + num_jk_pairs c *
         (min_positive_gradient1 g + min_positive_gradient2 g));
   fun _ => on_postponed_positive_gradient1_e (fun v =>
     v + num_jk_pairs c * half *
         (min_positive_gradient1 g + max_positive_gradient1 g +
          min_positive_gradient2 g + max_positive_gradient2 g));
   fun h => on_postponed_negative_gradient2_e (AddExpert
     (of_int (count (h k)) * half *
      (min_negative_gradient1 g + max_negative_gradient1 g))
     (coordinate_sum_ (stat (h j))));
   fun h => on_postponed_negative_gradient2_e (AddExpert
     (of_int (count (h j)) * half *
      (min_negative_gradient2 g + max_negative_gradient2 g))
     (coordinate_sum_ (stat (h k))));
   fun h => on_postponed_negative_gradient2_u (AddExpert
     (of_int (count (h k)) * max_negative_gradient1 g)
     (coordinate_sum_ (stat (h j))));
   fun h => on_postponed_negative_gradient2_u (AddExpert
     (of_int (count (h j)) * max_negative_gradient2 g)
     (coordinate_sum_ (stat (h k))));
   fun h => on_postponed_positive_gradient2_l (AddExpert
     (of_int (count (h k)) * min_positive_gradient1 g)
     (coordinate_sum_ (stat (h j))));
   fun h => on_postponed_positive_gradient2_l (AddExpert
     (of_int (count (h j)) * min_positive_gradient2 g)
     (coordinate_sum_ (stat (h k))));
   fun h => on_postponed_positive_gradient2_e (AddExpert
     (of_int (count (h k)) * half *
      (min_positive_gradient1 g + max_positive_gradient1 g))
     (coordinate_sum_ (stat (h j))));
   fun h => on_postponed_positive_gradient2_e (AddExpert
     (of_int (count (h j)) * half *
      (min_positive_gradient2 g + max_positive_gradient2 g))
     (coordinate_sum_ (stat (h k))))].

Definition Prune_node0 (h : Heap D B) : Heap D B :=
  execute i Prune_node0_body h.

(** "Then the j-th node, if it is not the same as the i-th node..." *)
Definition Prune_node1_body : list Statement :=
  [fun _ => on_postponed_negative_gradient1_e (fun v =>
     v + num_ik_pairs c * half *
         (min_negative_gradient1 g + max_negative_gradient1 g +
          min_negative_gradient3 g + max_negative_gradient3 g));
   fun _ => on_postponed_negative_gradient1_u (fun v =>
     v + num_ik_pairs c *
         (max_negative_gradient1 g + max_negative_gradient3 g));
   fun _ => on_postponed_positive_gradient1_l (fun v =>
     v + num_ik_pairs c *
         (min_positive_gradient1 g + min_positive_gradient3 g));
   fun _ => on_postponed_positive_gradient1_e (fun v =>
     v + num_ik_pairs c * half *
         (min_positive_gradient1 g + max_positive_gradient1 g +
          min_positive_gradient3 g + max_positive_gradient3 g));
   fun h => on_postponed_negative_gradient2_e (AddExpert
     (of_int (count (h k)) * half *
      (min_negative_gradient1 g + max_negative_gradient1 g))
     (coordinate_sum_ (stat (h i))));
   fun h => on_postponed_negative_gradient2_e (AddExpert
     (of_int (count (h i)) * half *
      (min_negative_gradient3 g + max_negative_gradient3 g))
     (coordinate_sum_ (stat (h k))));
   fun h => on_postponed_negative_gradient2_u (AddExpert
     (of_int (count (h k)) * max_negative_gradient1 g)
     (coordinate_sum_ (stat (h i))));
   fun h => on_postponed_negative_gradient2_u (AddExpert
     (of_int (count (h i)) * max_negative_gradient3 g)
     (coordinate_sum_ (stat (h k))));
   fun h => on_postponed_positive_gradient2_l (AddExpert
     (of_int (count (h k)) * min_positive_gradient1 g)
     (coordinate_sum_ (stat (h i))));
   fun h => on_postponed_positive_gradient2_l (AddExpert
     (of_int (count (h i)) * min_positive_gradient3 g)
     (coordinate_sum_ (stat (h k))));
   fun h => on_postponed_positive_gradient2_e (AddExpert
     (of_int (count (h k)) * half *
      (min_positive_gradient1 g + max_positive_gradient1 g))
     (coordinate_sum_ (stat (h i))));
   fun h => on_postponed_positive_gradient2_e (AddExpert
     (of_int (count (h i)) * half *
      (min_positive_gradient3 g + max_positive_gradient3 g))
     (coordinate_sum_ (stat (h k))))].

Definition Prune_node1 (h : Heap D B) : Heap D B :=
  if negb (Pos.eqb j i) then execute j Prune_node1_body h else h.

(** "Then the k-th node." (under [tree_nodes[2] != tree_nodes[1]]) *)
Definition Prune_node2_body : list Statement :=
  [fun _ => on_postponed_negative_gradient1_e (fun v =>
     v + num_ij_pairs c * half *
         (min_negative_gradient2 g + max_negative_gradient2 g +
          min_negative_gradient3 g + max_negative_gradient3 g));
   fun _ => on_postponed_negative_gradient1_u (fun v =>
     v + num_ij_pairs c *
         (max_negative_gradient2 g + max_negative_gradient3 g));
   fun _ => on_postponed_positive_gradient1_l (fun v =>
     v + num_ij_pairs c *
         (min_positive_gradient2 g + min_positive_gradient3 g));
   fun _ => on_postponed_positive_gradient1_e (fun v =>
     v + num_ij_pairs c * half *
         (min_positive_gradient2 g + max_positive_gradient2 g +
          min_positive_gradient3 g + max_positive_gradient3 g));
   fun h => on_postponed_negative_gradient2_e (AddExpert
     (of_int (count (h j)) * half *
      (min_negative_gradient2 g + max_negative_gradient2 g))
     (coordinate_sum_ (stat (h i))));
   fun h => on_postponed_negative_gradient2_e (AddExpert
     (of_int (count (h i)) * half *
      (min_negative_gradient3 g + max_negative_gradient3 g))
     (coordinate_sum_ (stat (h j))));
   fun h => on_postponed_negative_gradient2_u (AddExpert
     (of_int (count (h j)) * max_negative_gradient2 g)
     (coordinate_sum_ (stat (h i))));
   fun h => on_postponed_negative_gradient2_u (AddExpert
     (of_int (count (h i)) * max_negative_gradient3 g)
     (coordinate_sum_ (stat (h j))));
   fun h => on_postponed_positive_gradient2_l (AddExpert
     (of_int (count (h j)) * min_positive_gradient2 g)
     (coordinate_sum_ (stat (h i))));
   fun h => on_postponed_positive_gradient2_l (AddExpert
     (of_int (count (h i)) * min_positive_gradient3 g)
     (coordinate_sum_ (stat (h j))));
   fun h => on_postponed_positive_gradient2_e (AddExpert
     (of_int (count (h j)) * half *
      (min_positive_gradient2 g + max_positive_gradient2 g))
     (coordinate_sum_ (stat (h i))));
   fun h => on_postponed_positive_gradient2_e (AddExpert
     (of_int (count (h i)) * half *
      (min_positive_gradient3 g + max_positive_gradient3 g))
     (coordinate_sum_ (stat (h j))))].

Definition Prune_node2 (h : Heap D B) : Heap D B :=
  if negb (Pos.eqb k j) then execute k Prune_node2_body h else h.

(** [Prune_]: the three blocks in the order of the source. *)
Definition Prune_ (h : Heap D B) : Heap D B :=
      Prune_node2 (Prune_node1 (Prune_node0 h)).

    (** The three blocks applied in another order. *)
Inductive slot : Type := Slot0 | Slot1 | Slot2.

Definition Prune_block (s : slot) : Heap D B -> Heap D B :=
      match s with
      | Slot0 => Prune_node0
      | Slot1 => Prune_node1
      | Slot2 => Prune_node2
      end.

Definition Prune_in_order (order : list slot) (h : Heap D B) : Heap D B :=
      fold_left (fun h s => Prune_block s h) order h.

End Prune.

Section Prunable.
Variable h : Heap D B.
Variable tree_nodes : ArrayList3 ptr.
Variable e : GradientErrors D.
Variable c : PairCounts D.
Variable relative_error total_n_minus_one_num_tuples : D.

Let node0 := h (at0 tree_nodes).
Let node1 := h (at1 tree_nodes).
Let node2 := h (at2 tree_nodes).

(** The initialiser of [first_node_prunable]. *)
Definition first_node_test : bool :=
  ((negative_gradient1_error e + negative_gradient2_error e) <=?
   (relative_error / total_n_minus_one_num_tuples) *
   fabs (negative_gradient1_u (stat node0) +
         postponed_negative_gradient1_u (stat node0)))
  &&
  ((positive_gradient1_error e + positive_gradient2_error e) <=?
   (relative_error / total_n_minus_one_num_tuples) *
   (positive_gradient1_l (stat node0) +
    postponed_positive_gradient1_l (stat node0)))
  &&
  (of_int (count node2) * l1_norm_coordinate_sum_ (stat node1) *
   negative_gradient1_error e +
   of_int (count node1) * l1_norm_coordinate_sum_ (stat node2) *
   negative_gradient2_error e <=?
   relative_error * num_jk_pairs c / total_n_minus_one_num_tuples *
   L1Norm_ (negative_gradient2_u (stat node0)))
  &&
  (of_int (count node2) * l1_norm_coordinate_sum_ (stat node1) *
   positive_gradient1_error e +
   of_int (count node1) * l1_norm_coordinate_sum_ (stat node2) *
   positive_gradient2_error e <=?
   relative_error * num_jk_pairs c / total_n_minus_one_num_tuples *
   (L1Norm_ (positive_gradient2_l (stat node0)) +
    L1Norm_ (postponed_positive_gradient2_l (stat node0)))).

(** The third operand of the conditional initialising
    [second_node_prunable]. *)
Definition second_node_test : bool :=
  ((negative_gradient1_error e + negative_gradient3_error e) <=?
   (relative_error / total_n_minus_one_num_tuples) *
   fabs (negative_gradient1_u (stat node1) +
         postponed_negative_gradient1_u (stat node1)))
  &&
  ((positive_gradient1_error e + positive_gradient3_error e) <=?
   (relative_error / total_n_minus_one_num_tuples) *
   (positive_gradient1_l (stat node1) +
    postponed_positive_gradient1_l (stat node1)))
  &&
  (of_int (count node2) * l1_norm_coordinate_sum_ (stat node0) *
   negative_gradient1_error e +
   of_int (count node0) * l1_norm_coordinate_sum_ (stat node2) *
   negative_gradient3_error e <=?
   relative_error * num_ik_pairs c / total_n_minus_one_num_tuples *
   (L1Norm_ (negative_gradient2_u (stat node1)) +
    L1Norm_ (postponed_negative_gradient2_u (stat node1))))
  &&
  (of_int (count node2) * l1_norm_coordinate_sum_ (stat node0) *
   positive_gradient1_error e +
   of_int (count node0) * l1_norm_coordinate_sum_ (stat node2) *
   positive_gradient3_error e <=?
   relative_error * num_ik_pairs c / total_n_minus_one_num_tuples *
   (L1Norm_ (positive_gradient2_l (stat node1)) +
    L1Norm_ (postponed_positive_gradient2_l (stat node1)))).

(** The third operand of the conditional initialising
    [third_node_prunable]. *)
Definition third_node_test : bool :=
  ((negative_gradient2_error e + negative_gradient3_error e) <=?
   (relative_error / total_n_minus_one_num_tuples) *
   fabs (negative_gradient1_u (stat node2) +
         postponed_negative_gradient1_u (stat node2)))
  &&
  ((positive_gradient2_error e + positive_gradient3_error e) <=?
   (relative_error / total_n_minus_one_num_tuples) *
   (positive_gradient1_l (stat node2) +
    postponed_positive_gradient1_l (stat node2)))
  &&
  (of_int (count node1) * l1_norm_coordinate_sum_ (stat node0) *
   negative_gradient2_error e +
   of_int (count node0) * l1_norm_coordinate_sum_ (stat node1) *
   negative_gradient3_error e <=?
   relative_error * num_ij_pairs c / total_n_minus_one_num_tuples *
   (L1Norm_ (negative_gradient2_u (stat node2)) +
    L1Norm_ (postponed_negative_gradient2_u (stat node2))))
  &&
  (of_int (count node1) * l1_norm_coordinate_sum_ (stat node0) *
   positive_gradient2_error e +
   of_int (count node0) * l1_norm_coordinate_sum_ (stat node1) *
   positive_gradient3_error e <=?
   relative_error * num_ij_pairs c / total_n_minus_one_num_tuples *
   (L1Norm_ (positive_gradient2_l (stat node2)) +
    L1Norm_ (postponed_positive_gradient2_l (stat node2)))).

(** [Prunable_], with its two early returns. *)
Definition Prunable_ : bool :=
  let first_node_prunable := first_node_test in
  if negb first_node_prunable then false
  else
    let second_node_prunable :=
      if Pos.eqb (at1 tree_nodes) (at0 tree_nodes)
      then first_node_prunable else second_node_test in
    if negb second_node_prunable then false
    else
      let third_node_prunable :=
        if Pos.eqb (at2 tree_nodes) (at1 tree_nodes)
        then second_node_prunable else third_node_test in
      third_node_prunable.

(** The verdicts of the three slots as section 4.4 of the design describes
    them: a slot that is the same node as the slot before it takes over that
    slot's verdict. *)
Definition slot0_verdict : bool := first_node_test.

Definition slot1_verdict : bool :=
  if Pos.eqb (at1 tree_nodes) (at0 tree_nodes)
  then slot0_verdict else second_node_test.

Definition slot2_verdict : bool :=
  if Pos.eqb (at2 tree_nodes) (at1 tree_nodes)
  then slot1_verdict else third_node_test.

(** The slot test in the words of section 4.4, for the region in slot
    [self] against the regions [a] and [b] of the two other slots:
    [neg_a], [pos_a] are the errors of the gradient component along the
    axis from [self] to [a], [neg_b], [pos_b] those along the axis to [b],
    and [pairs] is the number of pairs the two other regions contribute.
    Every budget takes the region's accumulated magnitude as its own bound
    plus the postponed bound. *)
Definition documented_slot_test (self a b : TreeNode D B)
    (neg_a pos_a neg_b pos_b pairs : D) : bool :=
  ((neg_a + neg_b) <=?
   (relative_error / total_n_minus_one_num_tuples) *
   fabs (negative_gradient1_u (stat self) +
         postponed_negative_gradient1_u (stat self)))
  &&
  ((pos_a + pos_b) <=?
   (relative_error / total_n_minus_one_num_tuples) *
   (positive_gradient1_l (stat self) +
    postponed_positive_gradient1_l (stat self)))
  &&
  (of_int (count b) * l1_norm_coordinate_sum_ (stat a) * neg_a +
   of_int (count a) * l1_norm_coordinate_sum_ (stat b) * neg_b <=?
   relative_error * pairs / total_n_minus_one_num_tuples *
   (L1Norm_ (negative_gradient2_u (stat self)) +
    L1Norm_ (postponed_negative_gradient2_u (stat self))))
  &&
  (of_int (count b) * l1_norm_coordinate_sum_ (stat a) * pos_a +
   of_int (count a) * l1_norm_coordinate_sum_ (stat b) * pos_b <=?
   relative_error * pairs / total_n_minus_one_num_tuples *
   (L1Norm_ (positive_gradient2_l (stat self)) +
    L1Norm_ (postponed_positive_gradient2_l (stat self)))).

Definition documented_Prunable : bool :=
  let first :=
    documented_slot_test node0 node1 node2
      (negative_gradient1_error e) (positive_gradient1_error e)
      (negative_gradient2_error e) (positive_gradient2_error e)
      (num_jk_pairs c) in
  let second :=
    if Pos.eqb (at1 tree_nodes) (at0 tree_nodes) then first
    else documented_slot_test node1 node0 node2
           (negative_gradient1_error e) (positive_gradient1_error e)
           (negative_gradient3_error e) (positive_gradient3_error e)
           (num_ik_pairs c) in
  let third :=
    if Pos.eqb (at2 tree_nodes) (at1 tree_nodes) then second
    else documented_slot_test node2 node0 node1
           (negative_gradient2_error e) (positive_gradient2_error e)
           (negative_gradient3_error e) (positive_gradient3_error e)
           (num_ij_pairs c) in
  first && second && third.

End Prunable.

(** [ComputeGradientComponentError_]: half the width of each interval. *)
Definition ComputeGradientComponentError_ (g : GradientBounds D)
    : GradientErrors D :=
  MkGradientErrors
    ((max_negative_gradient1 g - min_negative_gradient1 g) * half)
    ((max_positive_gradient1 g - min_positive_gradient1 g) * half)
    ((max_negative_gradient2 g - min_negative_gradient2 g) * half)
    ((max_positive_gradient2 g - min_positive_gradient2 g) * half)
    ((max_negative_gradient3 g - min_negative_gradient3 g) * half)
    ((max_positive_gradient3 g - min_positive_gradient3 g) * half).

End Pruning.

(** ** The footprint of the propagation *)

Section Footprint.
Context {D B : Type}.

(** What the right-hand sides of [Prune_] read of the heap: the counts and
    the coordinate sums. *)
Definition same_reads (h h' : Heap D B) : Prop :=
  forall p, count (h p) = count (h' p) /\
            coordinate_sum_ (stat (h p)) = coordinate_sum_ (stat (h' p)).

(** A statement that leaves [coordinate_sum_] alone and whose right-hand
    side reads counts and coordinate sums only. *)
(** The members that [Prune_] never writes. *)
Definition same_accumulated (s s' : Statistics D) : Prop :=
  negative_gradient1_u s = negative_gradient1_u s' /\
  positive_gradient1_l s = positive_gradient1_l s' /\
  negative_gradient2_u s = negative_gradient2_u s' /\
  positive_gradient2_l s = positive_gradient2_l s' /\
  l1_norm_coordinate_sum_ s = l1_norm_coordinate_sum_ s' /\
  coordinate_sum_ s = coordinate_sum_ s'.

(** A statement that writes a postponed member only and whose right-hand
    side reads counts and coordinate sums only. *)
Definition postpones (st : Statement (D:=D) (B:=B)) : Prop :=
  (forall h s, same_accumulated (st h s) s) /\
  (forall h h' s, same_reads h h' -> st h s = st h' s).

Definition same_region (n n' : TreeNode D B) : Prop :=
  count n = count n' /\ begin_ n = begin_ n' /\ end_ n = end_ n' /\
  bound n = bound n' /\ same_accumulated (stat n) (stat n').

(** The node a block writes, if it writes at all. *)
Definition Prune_target (tree_nodes : ArrayList3 ptr) (s : slot) : ptr :=
  match s with
  | Slot0 => at0 tree_nodes
  | Slot1 => at1 tree_nodes
  | Slot2 => at2 tree_nodes
  end.

(** A block that writes is not skipped: slot 1 writes when its node is not
    that of slot 0, slot 2 when its node is not that of slot 1. *)
Definition Prune_writes (tree_nodes : ArrayList3 ptr) (s : slot) : bool :=
  match s with
  | Slot0 => true
  | Slot1 => negb (Pos.eqb (at1 tree_nodes) (at0 tree_nodes))
  | Slot2 => negb (Pos.eqb (at2 tree_nodes) (at1 tree_nodes))
  end.

End Footprint.

(** ** The kernel's members and the gradient bounds *)

Definition Matrix (D : Type) : Type := Z -> Z -> D.

(** [m.set(r, c, v)] *)
Definition Matrix_set {D : Type} (m : Matrix D) (r c : Z) (v : D) : Matrix D :=
  fun r' c' => if ((r' =? r) && (c' =? c))%Z then v else m r' c'.

(** [a[i]] for an [ArrayList] of three elements. *)
Definition at_ {A : Type} (a : ArrayList3 A) (i : Z) : A :=
  if (i =? 0)%Z then at0 a else if (i =? 1)%Z then at1 a else at2 a.

(** The members [distmat_] and [index_orders_]. *)
Record Kernel (D : Type) : Type := MkKernel {
  distmat_ : Matrix D;
  index_orders_ : ArrayList3 Z
}.

(** The index pairs visited by [for i < n - 1: for i < j < n] with [n = 3],
    in the order of the loops. *)
Definition upper_pairs : list (Z * Z) := [(0, 1); (0, 2); (1, 2)]%Z.

(** An output parameter of type [double *]: [out true D] is a cell the
    callee fills, [out false D] is [NULL]. *)
Definition out (non_null : bool) (A : Type) : Type :=
  if non_null then A else unit.

Definition fill {A : Type} (non_null : bool) (v : A) : out non_null A :=
  match non_null return out non_null A with
  | true => v
  | false => tt
  end.

(** The values of the six components at one sampled triple of points. *)
Record GradientSample (D : Type) : Type := MkGradientSample {
  negative_gradient1 : D;
  positive_gradient1 : D;
  negative_gradient2 : D;
  positive_gradient2 : D;
  negative_gradient3 : D;
  positive_gradient3 : D
}.

(** The running sums and sums of squares of [MonteCarloEval]. *)
Record GradientSums (D : Type) : Type := MkGradientSums {
  negative_gradient1_sum : D;
  negative_gradient1_squared_sum : D;
  positive_gradient1_sum : D;
  positive_gradient1_squared_sum : D;
  negative_gradient2_sum : D;
  negative_gradient2_squared_sum : D;
  positive_gradient2_sum : D;
  positive_gradient2_squared_sum : D;
  negative_gradient3_sum : D;
  negative_gradient3_squared_sum : D;
  positive_gradient3_sum : D;
  positive_gradient3_squared_sum : D
}.

Section Gradients.
Context {D B : Type} `{Arith D} `{Libm D} `{Bound D B}.
Local Open Scope dbl_scope.

(** [std::min] and [std::max] on [double]. *)
Definition std_min (a b : D) : D := if b <? a then b else a.
Definition std_max (a b : D) : D := if a <? b then b else a.

(** Modelled from the spec: [math::Sqr] belongs to the math library, which
    is not part of the kernel's file; it squares its argument. *)
Definition Sqr (x : D) : D := x * x.

(** Modelled from the spec: [la::DistanceSqEuclidean] belongs to the
    linear-algebra library, which is not part of the kernel's file; it is
    the exact squared distance of two points, the sum of the squared
    coordinate differences. *)
Definition DistanceSqEuclidean (a b : Vector D) : D :=
  fold_left (fun s ab => s + (fst ab - snd ab) * (fst ab - snd ab))
            (combine a b) (of_int 0).

(** [EvalMinMaxSquaredDistances(tree_nodes)] *)
Definition EvalMinMaxSquaredDistances (k : Kernel D) (h : Heap D B)
    (tree_nodes : ArrayList3 ptr) : Kernel D :=
  MkKernel
    (fold_left
       (fun m ij =>
          let node_i_bound := bound (h (at_ tree_nodes (fst ij))) in
          let node_j_bound := bound (h (at_ tree_nodes (snd ij))) in
          let min_squared_distance := MinDistanceSq node_i_bound node_j_bound in
          let max_squared_distance := MaxDistanceSq node_i_bound node_j_bound in
          Matrix_set (Matrix_set m (fst ij) (snd ij) min_squared_distance)
                     (snd ij) (fst ij) max_squared_distance)
       upper_pairs (distmat_ k))
    (index_orders_ k).

(** [EvalMinMaxSquaredDistances(data, indices)]; [data] maps a column index
    to the point stored in that column. *)
Definition EvalMinMaxSquaredDistances_points (k : Kernel D)
    (data : Z -> Vector D) (indices : ArrayList3 Z) : Kernel D :=
  MkKernel
    (fold_left
       (fun m ij =>
          let point_i := data (at_ indices (fst ij)) in
          let point_j := data (at_ indices (snd ij)) in
          let squared_distance := DistanceSqEuclidean point_i point_j in
          Matrix_set (Matrix_set m (fst ij) (snd ij) squared_distance)
                     (snd ij) (fst ij) squared_distance)
       upper_pairs (distmat_ k))
    (index_orders_ k).

(** [gradient_]: the result is [(minimum_negative_gradient,
    *maximum_negative_gradient, minimum_positive_gradient,
    *maximum_positive_gradient)]. *)
Definition gradient_ (distmat : Matrix D) (index_orders : ArrayList3 Z)
    (maximum_negative_gradient maximum_positive_gradient : bool)
    : D * out maximum_negative_gradient D * D * out maximum_positive_gradient D :=
  (* Between the i-th node and the j-th node. *)
  let min_index1 := Z.min (at0 index_orders) (at1 index_orders) in
  let max_index1 := Z.max (at0 index_orders) (at1 index_orders) in
  let min_dsqd1 := distmat min_index1 max_index1 in
  let min_dist1 := sqrt min_dsqd1 in
  let min_dqrt1 := Sqr min_dsqd1 in
  let min_dsix1 := min_dsqd1 * min_dqrt1 in
  let max_dsqd1 := distmat max_index1 min_index1 in
  let max_dist1 := sqrt max_dsqd1 in
  let max_dqrt1 := Sqr max_dsqd1 in
  let max_dsix1 := max_dsqd1 * max_dqrt1 in
  (* Between the i-th node and the k-th node. *)
  let min_index2 := Z.min (at0 index_orders) (at2 index_orders) in
  let max_index2 := Z.max (at0 index_orders) (at2 index_orders) in
  let min_dsqd2 := distmat min_index2 max_index2 in
  let min_dist2 := sqrt min_dsqd2 in
  let min_dcub2 := min_dsqd2 * min_dist2 in
  let min_dqui2 := min_dsqd2 * min_dcub2 in
  let max_dsqd2 := distmat max_index2 min_index2 in
  let max_dist2 := sqrt max_dsqd2 in
  let max_dcub2 := max_dsqd2 * max_dist2 in
  let max_dqui2 := max_dsqd2 * max_dcub2 in
  (* Between the j-th node and the k-th node. *)
  let min_index3 := Z.min (at1 index_orders) (at2 index_orders) in
  let max_index3 := Z.max (at1 index_orders) (at2 index_orders) in
  let min_dsqd3 := distmat min_index3 max_index3 in
  let min_dist3 := sqrt min_dsqd3 in
  let min_dcub3 := min_dsqd3 * min_dist3 in
  let min_dqui3 := min_dsqd3 * min_dcub3 in
  let max_dsqd3 := distmat max_index3 min_index3 in
  let max_dist3 := sqrt max_dsqd3 in
  let max_dcub3 := max_dsqd3 * max_dist3 in
  let max_dqui3 := max_dsqd3 * max_dcub3 in
  (* Common factor in front. *)
  let min_common_factor :=
    of_int 3 * AXILROD_TELLER_COEFF / (of_int 8 * max_dist1) in
  let max_common_factor :=
    of_int 3 * AXILROD_TELLER_COEFF / (of_int 8 * min_dist1) in
  let minimum_negative_gradient :=
    max_common_factor *
    (of_int (-8) / (min_dqrt1 * min_dcub2 * min_dcub3)
     - of_int 1 / (min_dqui2 * min_dqui3)
     - of_int 1 / (min_dsqd1 * min_dcub2 * min_dqui3)
     - of_int 1 / (min_dsqd1 * min_dqui2 * min_dcub3)
     - of_int 3 / (min_dqrt1 * min_dist2 * min_dqui3)
     - of_int 3 / (min_dqrt1 * min_dqui2 * min_dist3)
     - of_int 5 / (min_dsix1 * min_dist2 * min_dcub3)
     - of_int 5 / (min_dsix1 * min_dcub2 * min_dist3)) in
  let maximum_negative_gradient_value :=
    min_common_factor *
    (of_int (-8) / (max_dqrt1 * max_dcub2 * max_dcub3)
     - of_int 1 / (max_dqui2 * max_dqui3)
     - of_int 1 / (max_dsqd1 * max_dcub2 * max_dqui3)
     - of_int 1 / (max_dsqd1 * max_dqui2 * max_dcub3)
     - of_int 3 / (max_dqrt1 * max_dist2 * max_dqui3)
     - of_int 3 / (max_dqrt1 * max_dqui2 * max_dist3)
     - of_int 5 / (max_dsix1 * max_dist2 * max_dcub3)
     - of_int 5 / (max_dsix1 * max_dcub2 * max_dist3)) in
  let minimum_positive_gradient :=
    min_common_factor *
    (of_int 5 * min_dist2 / (max_dsix1 * max_dqui3) +
     of_int 5 * min_dist3 / (max_dsix1 * max_dqui2) +
     of_int 6 / (max_dqrt1 * max_dcub2 * max_dcub3)) in
  let maximum_positive_gradient_value :=
    max_common_factor *
    (of_int 5 * max_dist2 / (min_dsix1 * min_dqui3) +
     of_int 5 * max_dist3 / (min_dsix1 * min_dqui2) +
     of_int 6 / (min_dqrt1 * min_dcub2 * min_dcub3)) in
  (minimum_negative_gradient,
   fill maximum_negative_gradient maximum_negative_gradient_value,
   minimum_positive_gradient,
   fill maximum_positive_gradient maximum_positive_gradient_value).

(** [EvalGradients]: three calls of [gradient_], each after [index_orders_]
    has been rewritten.  (Its parameter [dsqd_matrix] is not used by the
    body, which reads [distmat_].)  The six flags say which of the six
    [max_*] pointers are not [NULL]. *)
Definition EvalGradients (k : Kernel D)
    (max_negative_gradient1 max_positive_gradient1
     max_negative_gradient2 max_positive_gradient2
     max_negative_gradient3 max_positive_gradient3 : bool) :=
  let k := MkKernel (distmat_ k) (MkArrayList3 0 1 2)%Z in
  let g1 := gradient_ (distmat_ k) (index_orders_ k)
              max_negative_gradient1 max_positive_gradient1 in
  let k := MkKernel (distmat_ k) (MkArrayList3 0 2 1)%Z in
  let g2 := gradient_ (distmat_ k) (index_orders_ k)
              max_negative_gradient2 max_positive_gradient2 in
  let k := MkKernel (distmat_ k) (MkArrayList3 2 1 0)%Z in
  let g3 := gradient_ (distmat_ k) (index_orders_ k)
              max_negative_gradient3 max_positive_gradient3 in
  (k, g1, g2, g3).

End Gradients.

(** ** Pair counts, sampling and the two pruning entry points *)

(** The binomial coefficient on natural numbers, by Pascal's rule. *)
Fixpoint choose (n k : nat) {struct n} : nat :=
  match n, k with
  | _, O => 1
  | O, S _ => 0
  | S n', S k' => choose n' k' + choose n' (S k')
  end.

Section Entry.
Context {D B : Type} `{Arith D} `{Libm D} `{Bound D B}.
Local Open Scope dbl_scope.

(** Modelled from the spec: [math::BinomialCoefficient] belongs to the math
    library, which is not part of the kernel's file; it is "n choose k" as a
    [double], zero outside [0 <= k <= n]. *)
Definition BinomialCoefficient (n k : Z) : D :=
  if ((k <? 0) || (n <? k))%Z then of_int 0
  else of_int (Z.of_nat (choose (Z.to_nat n) (Z.to_nat k))).

(** [UpdateStatistics_]: the running minimum, maximum, sum and sum of
    squares of each of the six components. *)
Definition UpdateStatistics_ (s : GradientSample D)
    (b : GradientBounds D) (m : GradientSums D)
    : GradientBounds D * GradientSums D :=
  (MkGradientBounds
     (std_min (min_negative_gradient1 b) (negative_gradient1 s))
     (std_max (max_negative_gradient1 b) (negative_gradient1 s))
     (std_min (min_positive_gradient1 b) (positive_gradient1 s))
     (std_max (max_positive_gradient1 b) (positive_gradient1 s))
     (std_min (min_negative_gradient2 b) (negative_gradient2 s))
     (std_max (max_negative_gradient2 b) (negative_gradient2 s))
     (std_min (min_positive_gradient2 b) (positive_gradient2 s))
     (std_max (max_positive_gradient2 b) (positive_gradient2 s))
     (std_min (min_negative_gradient3 b) (negative_gradient3 s))
     (std_max (max_negative_gradient3 b) (negative_gradient3 s))
     (std_min (min_positive_gradient3 b) (positive_gradient3 s))
     (std_max (max_positive_gradient3 b) (positive_gradient3 s)),
   MkGradientSums
     (negative_gradient1_sum m + negative_gradient1 s)
     (negative_gradient1_squared_sum m +
      negative_gradient1 s * negative_gradient1 s)
     (positive_gradient1_sum m + positive_gradient1 s)
     (positive_gradient1_squared_sum m +
      positive_gradient1 s * positive_gradient1 s)
     (negative_gradient2_sum m + negative_gradient2 s)
     (negative_gradient2_squared_sum m +
      negative_gradient2 s * negative_gradient2 s)
     (positive_gradient2_sum m + positive_gradient2 s)
     (positive_gradient2_squared_sum m +
      positive_gradient2 s * positive_gradient2 s)
     (negative_gradient3_sum m + negative_gradient3 s)
     (negative_gradient3_squared_sum m +
      negative_gradient3 s * negative_gradient3 s)
     (positive_gradient3_sum m + positive_gradient3 s)
     (positive_gradient3_squared_sum m +
      positive_gradient3 s * positive_gradient3 s)).

(** [ComputeMonteCarloGradientComponentError_]: the sample variance of each
    component, then [z_score] times its square root. *)
Definition ComputeMonteCarloGradientComponentError_ (m : GradientSums D)
    (num_samples : Z) (z_score : D) : GradientErrors D :=
  let inverse_factor := of_int 1 / (of_int num_samples - of_int 1) in
  let negative_gradient1_error :=
    inverse_factor * (negative_gradient1_squared_sum m -
                      negative_gradient1_sum m * negative_gradient1_sum m /
                      of_int num_samples) in
  let positive_gradient1_error :=
    inverse_factor * (positive_gradient1_squared_sum m -
                      positive_gradient1_sum m * positive_gradient1_sum m /
                      of_int num_samples) in
  let negative_gradient2_error :=
    inverse_factor * (negative_gradient2_squared_sum m -
                      negative_gradient2_sum m * negative_gradient2_sum m /
                      of_int num_samples) in
  let positive_gradient2_error :=
    inverse_factor * (positive_gradient2_squared_sum m -
                      positive_gradient2_sum m * positive_gradient2_sum m /
                      of_int num_samples) in
  let negative_gradient3_error :=
    inverse_factor * (negative_gradient3_squared_sum m -
                      negative_gradient3_sum m * negative_gradient3_sum m /
                      of_int num_samples) in
  let positive_gradient3_error :=
    inverse_factor * (positive_gradient3_squared_sum m -
                      positive_gradient3_sum m * positive_gradient3_sum m /
                      of_int num_samples) in
  MkGradientErrors
    (z_score * sqrt negative_gradient1_error)
    (z_score * sqrt positive_gradient1_error)
    (z_score * sqrt negative_gradient2_error)
    (z_score * sqrt positive_gradient2_error)
    (z_score * sqrt negative_gradient3_error)
    (z_score * sqrt positive_gradient3_error).

(** [ComputeNumTwoTuples_] *)
Definition ComputeNumTwoTuples_ (h : Heap D B) (nodes : ArrayList3 ptr)
    : PairCounts D :=
  if Pos.eqb (at0 nodes) (at1 nodes) then
    if Pos.eqb (at1 nodes) (at2 nodes) then
      (* All three nodes are equal... *)
      let num_jk_pairs :=
        BinomialCoefficient (count (h (at0 nodes)) - 1) 2 in
      MkPairCounts num_jk_pairs num_jk_pairs num_jk_pairs
    else
      (* i-th node equals j-th node, but j-th node does not equal k-th
         node. *)
      let num_jk_pairs :=
        of_int ((count (h (at0 nodes)) - 1) * count (h (at2 nodes))) in
      MkPairCounts num_jk_pairs num_jk_pairs
        (BinomialCoefficient (count (h (at0 nodes))) 2)
  else
    if Pos.eqb (at1 nodes) (at2 nodes) then
      (* i-th node does not equal j-th node, but j-th node equals k-th
         node. *)
      MkPairCounts
        (BinomialCoefficient (count (h (at1 nodes))) 2)
        (of_int (count (h (at0 nodes)) * (count (h (at2 nodes)) - 1)))
        (of_int (count (h (at0 nodes)) * (count (h (at1 nodes)) - 1)))
    else
      (* All three nodes are disjoint in this case... *)
      MkPairCounts
        (of_int (count (h (at1 nodes)) * count (h (at2 nodes))))
        (of_int (count (h (at0 nodes)) * count (h (at2 nodes))))
        (of_int (count (h (at0 nodes)) * count (h (at1 nodes)))).

(** *** [MonteCarloEval] *)

(** The variables of [MonteCarloEval] that its loop reads and writes: the
    kernel's members, [indices], the number of calls made to the random
    number generator, the running order statistics and sums, and the two
    counters. *)
Record Sampler : Type := MkSampler {
  sampler_kernel : Kernel D;
  sampler_indices : ArrayList3 Z;
  sampler_draws : nat;
  running_bounds : GradientBounds D;
  running_sums : GradientSums D;
  num_sample_trials_remaining : Z;
  current_num_samples : Z
}.

Section MonteCarlo.
(** Modelled from the spec: [math::RandInt] belongs to the math library,
    which is not part of the kernel's file; it draws an index of a range.
    [RandInt n lo hi] is the value returned by the [n]-th call made during
    one [MonteCarloEval], when called with the range [lo], [hi]. *)
Variable RandInt : nat -> Z -> Z -> Z.
Variable data : Z -> Vector D.
Variable h : Heap D B.
Variable nodes : ArrayList3 ptr.
Variable z_score : D.

(** One execution of the body of the [do ... while] loop. *)
Definition MonteCarloEval_body (s : Sampler) : Sampler :=
  let n := sampler_draws s in
  let indices :=
    MkArrayList3
      (RandInt n (begin_ (h (at0 nodes))) (end_ (h (at0 nodes))))
      (RandInt (S n) (begin_ (h (at1 nodes))) (end_ (h (at1 nodes))))
      (RandInt (S (S n)) (begin_ (h (at2 nodes))) (end_ (h (at2 nodes)))) in
  (* Continue until a valid sample is chosen. *)
  if negb ((at0 indices <? at1 indices)%Z && (at1 indices <? at2 indices)%Z)
  then
    MkSampler (sampler_kernel s) indices (S (S (S n)))
      (running_bounds s) (running_sums s)
      (num_sample_trials_remaining s) (current_num_samples s)
  else
    let k := EvalMinMaxSquaredDistances_points (sampler_kernel s) data indices in
    let '(k, (negative_gradient1, _, positive_gradient1, _),
             (negative_gradient2, _, positive_gradient2, _),
             (negative_gradient3, _, positive_gradient3, _)) :=
      EvalGradients k false false false false false false in
    let '(bounds, sums) :=
      UpdateStatistics_
        (MkGradientSample negative_gradient1 positive_gradient1
           negative_gradient2 positive_gradient2
           negative_gradient3 positive_gradient3)
        (running_bounds s) (running_sums s) in
    let num_sample_trials_remaining :=
      (num_sample_trials_remaining s - 1)%Z in
    let current_num_samples := (current_num_samples s + 1)%Z in
    (* The errors computed when the batch is complete are locals of the
       [if] block; nothing reads them. *)
    let _ :=
      if (num_sample_trials_remaining =? 0)%Z
      then Some (ComputeMonteCarloGradientComponentError_ sums
                   current_num_samples z_score)
      else None in
    MkSampler k indices (S (S (S n))) bounds sums
      num_sample_trials_remaining current_num_samples.

(** [do body while (num_sample_trials_remaining > 0)], for at most [fuel]
    executions of the body. *)
Fixpoint MonteCarloEval_loop (fuel : nat) (s : Sampler) : option Sampler :=
  match fuel with
  | O => None
  | S fuel' =>
      let s := MonteCarloEval_body s in
      if (num_sample_trials_remaining s >? 0)%Z
      then MonteCarloEval_loop fuel' s
      else Some s
  end.

(** The state at the entry of the loop ([-DBL_MAX] is written
    [0 - DBL_MAX]). *)
Definition MonteCarloEval_init (k : Kernel D) (indices : ArrayList3 Z)
    : Sampler :=
  MkSampler k indices 0
    (MkGradientBounds
       (of_int 0) (of_int 0 - DBL_MAX) DBL_MAX (of_int 0)
       (of_int 0) (of_int 0 - DBL_MAX) DBL_MAX (of_int 0)
       (of_int 0) (of_int 0 - DBL_MAX) DBL_MAX (of_int 0))
    (MkGradientSums
       (of_int 0) (of_int 0) (of_int 0) (of_int 0)
       (of_int 0) (of_int 0) (of_int 0) (of_int 0)
       (of_int 0) (of_int 0) (of_int 0) (of_int 0))
    25 0.

(** [MonteCarloEval]: the result, the kernel's members, [indices] and the
    heap at the return; [None] when [fuel] executions of the loop body do
    not reach the end of the loop. *)
Definition MonteCarloEval (fuel : nat) (k : Kernel D)
    (indices : ArrayList3 Z)
    (relative_error total_n_minus_one_num_tuples : D)
    : option (bool * Kernel D * ArrayList3 Z * Heap D B) :=
  let pairs := ComputeNumTwoTuples_ h nodes in
  let prunable := false in
  match MonteCarloEval_loop fuel (MonteCarloEval_init k indices) with
  | None => None
  | Some s => Some (prunable, sampler_kernel s, sampler_indices s, h)
  end.

End MonteCarlo.

(** *** The deterministic [Eval] on tree nodes *)

(** The pair counts computed by [Eval] before it calls [Prunable_]. *)
Definition Eval_pair_counts (h : Heap D B) (tree_nodes : ArrayList3 ptr)
    : PairCounts D :=
  let num_ik_pairs :=
    of_int (count (h (at0 tree_nodes)) * count (h (at2 tree_nodes))) in
  let num_ij_pairs :=
    of_int (count (h (at0 tree_nodes)) * count (h (at1 tree_nodes))) in
  let num_jk_pairs :=
    of_int (count (h (at1 tree_nodes)) * count (h (at2 tree_nodes))) in
  MkPairCounts num_jk_pairs num_ik_pairs num_ij_pairs.

(** "Do not prune if any of the minimum distances is zero." *)
Definition zero_min_distance (k : Kernel D) : bool :=
  existsb (fun ij => distmat_ k (fst ij) (snd ij) =? of_int 0) upper_pairs.

(** The twelve bounds computed by [Eval], in the order of their
    declaration. *)
Definition twelve_bounds (g : GradientBounds D) : list D :=
  [min_negative_gradient1 g; max_negative_gradient1 g;
   min_positive_gradient1 g; max_positive_gradient1 g;
   min_negative_gradient2 g; max_negative_gradient2 g;
   min_positive_gradient2 g; max_positive_gradient2 g;
   min_negative_gradient3 g; max_negative_gradient3 g;
   min_positive_gradient3 g; max_positive_gradient3 g].

(** "If any of the components is computed to be NaN's or Inf's". *)
Definition nan_or_inf (g : GradientBounds D) : bool :=
  isnan (min_negative_gradient1 g) || isnan (max_negative_gradient1 g) ||
  isnan (min_positive_gradient1 g) || isnan (max_positive_gradient1 g) ||
  isnan (min_negative_gradient2 g) || isnan (max_negative_gradient2 g) ||
  isnan (min_positive_gradient2 g) || isnan (max_positive_gradient2 g) ||
  isnan (min_negative_gradient3 g) || isnan (max_negative_gradient3 g) ||
  isnan (min_positive_gradient3 g) || isnan (max_positive_gradient3 g) ||
  isinf (min_negative_gradient1 g) || isinf (max_negative_gradient1 g) ||
  isinf (min_positive_gradient1 g) || isinf (max_positive_gradient1 g) ||
  isinf (min_negative_gradient2 g) || isinf (max_negative_gradient2 g) ||
  isinf (min_positive_gradient2 g) || isinf (max_positive_gradient2 g) ||
  isinf (min_negative_gradient3 g) || isinf (max_negative_gradient3 g) ||
  isinf (min_positive_gradient3 g) || isinf (max_positive_gradient3 g).

(** The call of [EvalGradients] made by [Eval], with its twelve results
    under their names. *)
Definition Eval_gradients (k : Kernel D) : Kernel D * GradientBounds D :=
  let '(k, (min_negative_gradient1, max_negative_gradient1,
            min_positive_gradient1, max_positive_gradient1),
           (min_negative_gradient2, max_negative_gradient2,
            min_positive_gradient2, max_positive_gradient2),
           (min_negative_gradient3, max_negative_gradient3,
            min_positive_gradient3, max_positive_gradient3)) :=
    EvalGradients k true true true true true true in
  (k, MkGradientBounds
        min_negative_gradient1 max_negative_gradient1
        min_positive_gradient1 max_positive_gradient1
        min_negative_gradient2 max_negative_gradient2
        min_positive_gradient2 max_positive_gradient2
        min_negative_gradient3 max_negative_gradient3
        min_positive_gradient3 max_positive_gradient3).

(** [Eval(data, indices, tree_nodes, relative_error, z_score,
    total_n_minus_one_num_tuples)]; its body uses neither [data] nor
    [indices] nor [z_score].  The result is the returned flag with the
    kernel's members and the heap at the return. *)
Definition Eval (k : Kernel D) (h : Heap D B) (tree_nodes : ArrayList3 ptr)
    (relative_error total_n_minus_one_num_tuples : D)
    : bool * Kernel D * Heap D B :=
  (* First, compute the pairwise distance among the three nodes. *)
  let k := EvalMinMaxSquaredDistances k h tree_nodes in
  if zero_min_distance k then (false, k, h)
  else
    (* Then, evaluate the gradients. *)
    let '(k, g) := Eval_gradients k in
    if nan_or_inf g then (false, k, h)
    else
      (* Compute approximation error. *)
      let e := ComputeGradientComponentError_ g in
      let c := Eval_pair_counts h tree_nodes in
      let prunable :=
        Prunable_ h tree_nodes e c relative_error
          total_n_minus_one_num_tuples in
      (* Prune only if all three nodes can be approximated. *)
      if prunable then (prunable, k, Prune_ tree_nodes g c h)
      else (prunable, k, h).

End Entry.

(** ** The exact evaluation of a triple of points *)

(** The eight force buffers handed to the point overload of [Eval]: four
    vectors indexed by point and four matrices with one column per
    point. *)
Record Forces (D : Type) : Type := MkForces {
  negative_force1_e : Z -> D;
  negative_force1_u : Z -> D;
  positive_force1_l : Z -> D;
  positive_force1_e : Z -> D;
  negative_force2_e : Z -> Vector D;
  negative_force2_u : Z -> Vector D;
  positive_force2_l : Z -> Vector D;
  positive_force2_e : Z -> Vector D
}.

(** [f[i] = v] *)
Definition assign {A : Type} (f : Z -> A) (i : Z) (v : A) : Z -> A :=
  fun j => if (j =? i)%Z then v else f j.

Section Direct.
Context {D : Type} `{Arith D} `{Libm D}.
Local Open Scope dbl_scope.

(** [force_]: the contribution to the point
    [indices[index_orders_[0]]].  The pointer form
    [la::AddExpert(n_rows, alpha, x, y)] adds [alpha] times the column [x]
    of [data] to the column [y] of a buffer. *)
Definition force_ (k : Kernel D) (data : Z -> Vector D)
    (indices : ArrayList3 Z)
    (negative_gradient1 positive_gradient1
     negative_gradient2 positive_gradient2
     negative_gradient3 positive_gradient3 : D)
    (f : Forces D) : Forces D :=
  let target := at_ indices (at0 (index_orders_ k)) in
  let first := data (at_ indices (at1 (index_orders_ k))) in
  let second := data (at_ indices (at2 (index_orders_ k))) in
  MkForces
    (* Negative contribution to the first component. *)
    (assign (negative_force1_e f) target
       (negative_force1_e f target +
        (negative_gradient1 + negative_gradient2)))
    (assign (negative_force1_u f) target
       (negative_force1_u f target +
        (negative_gradient1 + negative_gradient2)))
    (* Positive contribution to the first component. *)
    (assign (positive_force1_l f) target
       (positive_force1_l f target +
        (positive_gradient1 + positive_gradient2)))
    (assign (positive_force1_e f) target
       (positive_force1_e f target +
        (positive_gradient1 + positive_gradient2)))
    (* Negative contribution to the second component. *)
    (assign (negative_force2_e f) target
       (AddExpert negative_gradient2 second
          (AddExpert negative_gradient1 first (negative_force2_e f target))))
    (assign (negative_force2_u f) target
       (AddExpert negative_gradient2 second
          (AddExpert negative_gradient1 first (negative_force2_u f target))))
    (* Positive contribution to the second component. *)
    (assign (positive_force2_l f) target
       (AddExpert positive_gradient2 second
          (AddExpert positive_gradient1 first (positive_force2_l f target))))
    (assign (positive_force2_e f) target
       (AddExpert positive_gradient2 second
          (AddExpert positive_gradient1 first (positive_force2_e f target)))).

(** What [force_] leaves equal: the estimate and the bound of each of the
    four accumulators, at a point where they were equal. *)
Definition tight_at (f : Forces D) (p : Z) : Prop :=
  negative_force1_e f p = negative_force1_u f p /\
  positive_force1_l f p = positive_force1_e f p /\
  negative_force2_e f p = negative_force2_u f p /\
  positive_force2_l f p = positive_force2_e f p.

(** [EvalContributions]: three calls of [force_], each after
    [index_orders_] has been rewritten and with the gradients in the order
    of the call. *)
Definition EvalContributions (k : Kernel D) (data : Z -> Vector D)
    (indices : ArrayList3 Z) (s : GradientSample D) (f : Forces D)
    : Kernel D * Forces D :=
  let k := MkKernel (distmat_ k) (MkArrayList3 0 1 2)%Z in
  let f := force_ k data indices
             (negative_gradient1 s) (positive_gradient1 s)
             (negative_gradient2 s) (positive_gradient2 s)
             (negative_gradient3 s) (positive_gradient3 s) f in
  let k := MkKernel (distmat_ k) (MkArrayList3 1 0 2)%Z in
  let f := force_ k data indices
             (negative_gradient1 s) (positive_gradient1 s)
             (negative_gradient3 s) (positive_gradient3 s)
             (negative_gradient2 s) (positive_gradient2 s) f in
  let k := MkKernel (distmat_ k) (MkArrayList3 2 0 1)%Z in
  let f := force_ k data indices
             (negative_gradient2 s) (positive_gradient2 s)
             (negative_gradient3 s) (positive_gradient3 s)
             (negative_gradient1 s) (positive_gradient1 s) f in
  (k, f).

(** The six values of the gradient at a triple of points: the call of
    [EvalGradients] with every [max_*] pointer [NULL]. *)
Definition point_gradients (k : Kernel D) : Kernel D * GradientSample D :=
  let '(k, (negative_gradient1, _, positive_gradient1, _),
           (negative_gradient2, _, positive_gradient2, _),
           (negative_gradient3, _, positive_gradient3, _)) :=
    EvalGradients k false false false false false false in
  (k, MkGradientSample negative_gradient1 positive_gradient1
        negative_gradient2 positive_gradient2
        negative_gradient3 positive_gradient3).

(** [Eval(data, indices, negative_force1_e, ..., positive_force2_e)], the
    overload on three points. *)
Definition Eval_points (k : Kernel D) (data : Z -> Vector D)
    (indices : ArrayList3 Z) (f : Forces D) : Kernel D * Forces D :=
  (* Evaluate the pairwise distances among all points. *)
  let k := EvalMinMaxSquaredDistances_points k data indices in
  (* Evaluate the required components of the force vector. *)
  let '(k, s) := point_gradients k in
  (* Contributions to all three particles in the list. *)
  EvalContributions k data indices s f.

End Direct.

(** ** Orderings of bounds, in exact arithmetic *)

(** Each lower bound is at most the matching upper bound. *)
Definition bounds_ordered (g : GradientBounds Q) : Prop :=
  (min_negative_gradient1 g <= max_negative_gradient1 g /\
   min_positive_gradient1 g <= max_positive_gradient1 g /\
   min_negative_gradient2 g <= max_negative_gradient2 g /\
   min_positive_gradient2 g <= max_positive_gradient2 g /\
   min_negative_gradient3 g <= max_negative_gradient3 g /\
   min_positive_gradient3 g <= max_positive_gradient3 g)%Q.

(** The postponed estimate of the first component lies on the right side
    of the postponed bound: below the upper bound of the negative part and
    above the lower bound of the positive part. *)
Definition postponed_ordered (s : Statistics Q) : Prop :=
  (postponed_negative_gradient1_e s <= postponed_negative_gradient1_u s /\
   postponed_positive_gradient1_l s <= postponed_positive_gradient1_e s)%Q.

Definition counts_nonneg (c : PairCounts Q) : Prop :=
  (0 <= num_jk_pairs c /\ 0 <= num_ik_pairs c /\ 0 <= num_ij_pairs c)%Q.

(** One set of errors is componentwise at most another. *)
Definition errors_le (e' e : GradientErrors Q) : Prop :=
  (negative_gradient1_error e' <= negative_gradient1_error e /\
   positive_gradient1_error e' <= positive_gradient1_error e /\
   negative_gradient2_error e' <= negative_gradient2_error e /\
   positive_gradient2_error e' <= positive_gradient2_error e /\
   negative_gradient3_error e' <= negative_gradient3_error e /\
   positive_gradient3_error e' <= positive_gradient3_error e)%Q.

(** ** Exact real arithmetic

    The operations of [double] read on the real numbers: no rounding, no
    overflow, and neither NaN nor an infinity. *)

Section RealArith.
Import Rdefinitions.
Local Open Scope R_scope.

Definition Rleb (x y : R) : bool :=
  if RIneq.Rle_dec x y then true else false.

Definition Rltb (x y : R) : bool :=
  if RIneq.Rlt_dec x y then true else false.

Definition Reqb (x y : R) : bool :=
  if RIneq.Req_dec_T x y then true else false.

#[export] Instance exactR : Arith R := {
  of_int := IZR;
  half := / 2;
  add := Rplus;
  sub := Rminus;
  mul := Rmult;
  div := Rdiv;
  fabs := Rbasic_fun.Rabs;
  leb := Rleb
}.

#[export] Instance exactR_libm : Libm R := {
  sqrt := R_sqrt.sqrt;
  eqb := Reqb;
  ltb := Rltb;
  isnan := fun _ => false;
  isinf := fun _ => false;
  DBL_MAX := IZR (2 ^ 1024 - 2 ^ 971);
  AXILROD_TELLER_COEFF := 1 / IZR (10 ^ 18)
}.

(** The four results of one call of [gradient_] are in order around zero:
    the bounds of the negative part below it, those of the positive part
    above it. *)
Definition sign_ordered (g : R * R * R * R) : Prop :=
  let '(minimum_negative_gradient, maximum_negative_gradient,
        minimum_positive_gradient, maximum_positive_gradient) := g in
  minimum_negative_gradient <= maximum_negative_gradient /\
  maximum_negative_gradient <= 0 /\
  0 <= minimum_positive_gradient /\
  minimum_positive_gradient <= maximum_positive_gradient.

Definition bounds_signed (g : GradientBounds R) : Prop :=
  sign_ordered (min_negative_gradient1 g, max_negative_gradient1 g,
                min_positive_gradient1 g, max_positive_gradient1 g) /\
  sign_ordered (min_negative_gradient2 g, max_negative_gradient2 g,
                min_positive_gradient2 g, max_positive_gradient2 g) /\
  sign_ordered (min_negative_gradient3 g, max_negative_gradient3 g,
                min_positive_gradient3 g, max_positive_gradient3 g).

(** The unbiased sample variance of [n] values, from their sum and the sum
    of their squares. *)
Definition sample_variance (n : Z) (sum squared_sum : R) : R :=
  (squared_sum - sum * sum / IZR n) / (IZR n - 1).

(** The sum and the sum of squares of [n] real values satisfy
    [sum^2 <= n * squared_sum]. *)
Definition sum_dominated (n : Z) (sum squared_sum : R) : Prop :=
  0 <= squared_sum /\ sum * sum <= IZR n * squared_sum.

Definition sums_dominated (n : Z) (m : GradientSums R) : Prop :=
  sum_dominated n (negative_gradient1_sum m)
    (negative_gradient1_squared_sum m) /\
  sum_dominated n (positive_gradient1_sum m)
    (positive_gradient1_squared_sum m) /\
  sum_dominated n (negative_gradient2_sum m)
    (negative_gradient2_squared_sum m) /\
  sum_dominated n (positive_gradient2_sum m)
    (positive_gradient2_squared_sum m) /\
  sum_dominated n (negative_gradient3_sum m)
    (negative_gradient3_squared_sum m) /\
  sum_dominated n (positive_gradient3_sum m)
    (positive_gradient3_squared_sum m).

(** Each error is [z_score] times a square root whose square is the sample
    variance, which is not negative. *)
Definition error_of_variance (z_score error : R) (n : Z)
    (sum squared_sum : R) : Prop :=
  0 <= sample_variance n sum squared_sum /\
  error * error = z_score * z_score * sample_variance n sum squared_sum.

End RealArith.

(** ** Concrete inputs

    Two bound types over [binary64] and a few heaps, used to run the kernel
    on explicit inputs. *)

(** A one-dimensional bounding interval [[lo, hi]]: the squared gap between
    two intervals (zero when they meet) and the squared distance of their
    farthest ends. *)
Record Interval : Type := MkInterval { lo : float; hi : float }.

Definition fmax (a b : float) : float := if PrimFloat.ltb a b then b else a.

#[export] Instance Interval_bound : Bound float Interval := {
  MinDistanceSq a b :=
    (let gap := fmax 0 (fmax (lo a - hi b) (lo b - hi a)) in gap * gap)%float;
  MaxDistanceSq a b :=
    (let far := fmax (PrimFloat.abs (hi a - lo b))
                     (PrimFloat.abs (hi b - lo a)) in
     far * far)%float
}.

(** A bound type that answers every query with the two distances it stores,
    also when a region is queried against itself. *)
Record FixedGap : Type := MkFixedGap { gap_min : float; gap_max : float }.

#[export] Instance FixedGap_bound : Bound float FixedGap := {
  MinDistanceSq a b := gap_min a;
  MaxDistanceSq a b := gap_max a
}.

(** Statistics with the given accumulated bounds and nothing postponed. *)
Definition plain_stat (neg1 pos1 l1 : float) (v : Vector float)
    : Statistics float :=
  MkStatistics neg1 pos1 v v l1 v 0%float 0%float 0%float 0%float
    (map (fun _ => 0%float) v) (map (fun _ => 0%float) v)
    (map (fun _ => 0%float) v) (map (fun _ => 0%float) v).

Definition unit_stat : Statistics float :=
  plain_stat (-1)%float 1%float 1%float [1%float; 1%float; 1%float].

(** Three regions on a line, [[0,1]], [[3,4]] and [[7,9]], holding the
    points 0-1, 2-4 and 5-8. *)
Definition line_heap : Heap float Interval := fun p =>
  match p with
  | 1%positive => MkTreeNode 2 0 2 (MkInterval 0 1) unit_stat
  | 2%positive => MkTreeNode 3 2 5 (MkInterval 3 4) unit_stat
  | _ => MkTreeNode 4 5 9 (MkInterval 7 9) unit_stat
  end.

(** The same, the second region starting [2^-170] to the right of the end
    of the first. *)
Definition close_heap : Heap float Interval := fun p =>
  match p with
  | 1%positive => MkTreeNode 2 0 2 (MkInterval 0 1) unit_stat
  | 2%positive =>
      MkTreeNode 3 2 5 (MkInterval (1 + 0x1p-170) 4) unit_stat
  | _ => MkTreeNode 4 5 9 (MkInterval 7 9) unit_stat
  end.

(** Regions of three points each whose bound answers 1 and 4. *)
Definition gap_heap : Heap float FixedGap := fun _ =>
  MkTreeNode 3 0 3 (MkFixedGap 1 4) unit_stat.

Definition kernel0 : Kernel float :=
  MkKernel (fun _ _ => 0%float) (MkArrayList3 0 1 2)%Z.

Definition slots_ABC : ArrayList3 ptr := MkArrayList3 1%positive 2%positive 3%positive.
Definition slots_AAB : ArrayList3 ptr := MkArrayList3 1%positive 1%positive 2%positive.
Definition slots_AAA : ArrayList3 ptr := MkArrayList3 1%positive 1%positive 1%positive.
Definition slots_ABA : ArrayList3 ptr := MkArrayList3 1%positive 2%positive 1%positive.

(** Five points of space, by column index. *)
Definition sample_points (i : Z) : Vector float :=
  match i with
  | 0%Z => [0; 0; 0]%float
  | 1%Z => [1; 0; 0]%float
  | 2%Z => [0; 2; 0]%float
  | 3%Z => [0; 0; 3]%float
  | _ => [1; 1; 1]%float
  end.

(** A region holding the points 0 to 3. *)
Definition cloud_heap : Heap float Interval := fun _ =>
  MkTreeNode 4 0 4 (MkInterval 0 3) unit_stat.

(** A sequence of draws from the range 0..3 that repeats the triples
    (0, 1, 2), (2, 1, 0) and (1, 2, 3): the call number [n] is the
    [n mod 3]-th draw of the triple number [n / 3]. *)
Definition cycling_draws (n : nat) (lo hi : Z) : Z :=
  let p := Z.of_nat (n mod 3) in
  match ((n / 3) mod 3)%nat with
  | O => p
  | S O => (2 - p)%Z
  | _ => (p + 1)%Z
  end.

Definition indices0 : ArrayList3 Z := (MkArrayList3 0 0 0)%Z.

(** Statistics of a region whose vector-valued negative bound has so far
    only been postponed to it: [negative_gradient2_u] is zero and
    [postponed_negative_gradient2_u] is not. *)
Definition deferred_stat : Statistics float :=
  MkStatistics (-1)%float 1%float
    [0; 0; 0]%float [1; 1; 1]%float 1%float [1; 1; 1]%float
    0%float 0%float 0%float 0%float
    [0; 0; 0]%float [-1; -1; -1]%float [0; 0; 0]%float [0; 0; 0]%float.

(** [line_heap] with these statistics in its first region. *)
Definition deferred_heap : Heap float Interval := fun p =>
  match p with
  | 1%positive => MkTreeNode 2 0 2 (MkInterval 0 1) deferred_stat
  | _ => line_heap p
  end.

Definition quarter_errors : GradientErrors float :=
  MkGradientErrors 0.25%float 0.25%float 0.25%float 0.25%float
    0.25%float 0.25%float.

(** Statistics to which a negative bound of -1 has been postponed. *)
Definition tie_stat : Statistics float :=
  MkStatistics (-1)%float 1%float
    [1; 1; 1]%float [1; 1; 1]%float 1%float [1; 1; 1]%float
    0%float (-1)%float 0%float 0%float
    [0; 0; 0]%float [0; 0; 0]%float [0; 0; 0]%float [0; 0; 0]%float.

Definition tie_heap : Heap float Interval := fun p =>
  match p with
  | 1%positive => MkTreeNode 2 0 2 (MkInterval 0 1) tie_stat
  | _ => line_heap p
  end.

(** Gradient bounds whose upper negative bounds are [-2^53] along the
    first axis, 0 along the second and -1 along the third. *)
Definition tie_bounds : GradientBounds float :=
  MkGradientBounds
    (-0x1p+53)%float (-0x1p+53)%float 0%float 0%float
    0%float 0%float 0%float 0%float
    (-1)%float (-1)%float 0%float 0%float.

Definition unit_counts : PairCounts float :=
  MkPairCounts 1%float 1%float 1%float.

Definition zero_errors : GradientErrors float :=
  MkGradientErrors 0%float 0%float 0%float 0%float 0%float 0%float.

(** [line_heap] with a first region whose positive lower bound is -1. *)
Definition negative_bound_heap : Heap float Interval := fun p =>
  match p with
  | 1%positive =>
      MkTreeNode 2 0 2 (MkInterval 0 1)
        (plain_stat (-1)%float (-1)%float 1%float [1; 1; 1]%float)
  | _ => line_heap p
  end.

(** [line_heap] with a first region whose negative upper bound is 0. *)
Definition flat_heap : Heap float Interval := fun p =>
  match p with
  | 1%positive =>
      MkTreeNode 2 0 2 (MkInterval 0 1)
        (plain_stat 0%float 1%float 1%float [1; 1; 1]%float)
  | _ => line_heap p
  end.

(** The same regions in exact arithmetic: bounds of magnitude 1, nothing
    postponed. *)
Definition unit_statQ : Statistics Q :=
  MkStatistics (-1)%Q 1%Q [1; 1; 1]%Q [1; 1; 1]%Q 1%Q [1; 1; 1]%Q
    0%Q 0%Q 0%Q 0%Q [0; 0; 0]%Q [0; 0; 0]%Q [0; 0; 0]%Q [0; 0; 0]%Q.

Definition line_heapQ : Heap Q unit := fun p =>
  match p with
  | 1%positive => MkTreeNode 2 0 2 tt unit_statQ
  | 2%positive => MkTreeNode 3 2 5 tt unit_statQ
  | _ => MkTreeNode 4 5 9 tt unit_statQ
  end.

Definition small_errorsQ : GradientErrors Q :=
  MkGradientErrors (1 # 10)%Q (1 # 10)%Q (1 # 10)%Q (1 # 10)%Q
    (1 # 10)%Q (1 # 10)%Q.

Definition line_countsQ : PairCounts Q := MkPairCounts 12%Q 8%Q 6%Q.

(** Two regions under [FixedGap] bounds: A, of three points, which answers
    1 and 4, and every other address a region of two points which answers
    2 and 9. *)
Definition two_gap_heap : Heap float FixedGap := fun p =>
  match p with
  | 1%positive => MkTreeNode 3 0 3 (MkFixedGap 1 4) unit_stat
  | _ => MkTreeNode 2 3 5 (MkFixedGap 2 9) unit_stat
  end.

(** Whether two vectors agree componentwise under a comparison. *)
Fixpoint forallb2 {A : Type} (eq : A -> A -> bool) (u v : list A) : bool :=
  match u, v with
  | [], [] => true
  | x :: u', y :: v' => eq x y && forallb2 eq u' v'
  | _, _ => false
  end.

(** A generator that walks through the range it is given. *)
Definition modular_draws (n : nat) (lo hi : Z) : Z :=
  (lo + Z.of_nat n mod (hi - lo))%Z.

(** A region of two points, 0 and 1. *)
Definition pair_heap : Heap float Interval := fun _ =>
  MkTreeNode 2 0 2 (MkInterval 0 1) unit_stat.

(** Force buffers that hold zero for every point, in three dimensions. *)
Definition zero_forces : Forces float :=
  MkForces (fun _ => 0%float) (fun _ => 0%float)
    (fun _ => 0%float) (fun _ => 0%float)
    (fun _ => [0; 0; 0]%float) (fun _ => [0; 0; 0]%float)
    (fun _ => [0; 0; 0]%float) (fun _ => [0; 0; 0]%float).

Definition unit_sample : GradientSample float :=
  MkGradientSample (-1)%float 2%float (-4)%float 8%float
    (-16)%float 32%float.

Definition indices_012 : ArrayList3 Z := (MkArrayList3 0 1 2)%Z.

Definition ordered_boundsQ : GradientBounds Q :=
  MkGradientBounds (-3)%Q (-1)%Q 1%Q 2%Q (-5)%Q (-2)%Q 2%Q 4%Q
    (-4)%Q (-4)%Q 3%Q 3%Q.

Definition tight_boundsQ : GradientBounds Q :=
  MkGradientBounds (-1)%Q (-1)%Q 2%Q 2%Q (-3)%Q (-3)%Q 4%Q 4%Q
    (-5)%Q (-5)%Q 6%Q 6%Q.

Definition tenth_errorsQ : GradientErrors Q :=
  MkGradientErrors (1 # 20)%Q (1 # 10)%Q 0%Q (1 # 10)%Q (1 # 10)%Q
    (1 # 30)%Q.

(** Over the real numbers: a bound type that answers every query with the
    two squared distances it stores, and three regions under it. *)
Record Shell : Type := MkShell {
  shell_min : Rdefinitions.R;
  shell_max : Rdefinitions.R
}.

#[export] Instance Shell_bound : Bound Rdefinitions.R Shell := {
  MinDistanceSq a b := shell_min a;
  MaxDistanceSq a b := shell_max a
}.

Definition shell_heap : Heap Rdefinitions.R Shell := fun p =>
  let zero := Rdefinitions.IZR 0 in
  let s := MkStatistics zero zero [] [] zero []
             zero zero zero zero [] [] [] [] in
  match p with
  | 1%positive =>
      MkTreeNode 2 0 2 (MkShell (Rdefinitions.IZR 1) (Rdefinitions.IZR 4)) s
  | 2%positive =>
      MkTreeNode 3 2 5 (MkShell (Rdefinitions.IZR 2) (Rdefinitions.IZR 9)) s
  | _ =>
      MkTreeNode 4 5 9 (MkShell (Rdefinitions.IZR 3) (Rdefinitions.IZR 3)) s
  end.

Definition blank_kernelR : Kernel Rdefinitions.R :=
  MkKernel (fun _ _ => Rdefinitions.IZR 0) (MkArrayList3 0 0 0)%Z.

(** A generator whose draws increase from one call to the next, and the
    points 0, 1, 2, ... of a line in three dimensions. *)
Definition counting_draws (n : nat) (lo hi : Z) : Z := Z.of_nat n.

Definition real_points (i : Z) : Vector Rdefinitions.R :=
  [Rdefinitions.IZR i; Rdefinitions.IZR 0; Rdefinitions.IZR 0].

(** * Properties *)

(** ** Pair counts *)

Lemma choose_2 (n : nat) : 2 * choose n 2 = n * (n - 1).
Proof.
  assert (one : forall m, choose m 1 = m).
  { induction m as [|m IH]; simpl; [reflexivity|].
    rewrite IH. destruct m; simpl; lia. }
  induction n as [|n IH]; [reflexivity|].
  change (choose (S n) 2) with (choose n 1 + choose n 2).
  rewrite one. nia.
Qed.

Section PairCountFacts.
Context {D B : Type} `{Arith D}.

(** For a count that is not negative, [BinomialCoefficient n 2] is
    [n (n - 1) / 2]. *)
Lemma BinomialCoefficient_2 (n : Z) :
  (0 <= n)%Z -> BinomialCoefficient n 2 = of_int (n * (n - 1) / 2).
Proof.
  intros Hn. unfold BinomialCoefficient.
  destruct (n <? 2)%Z eqn:E; simpl.
  - apply Z.ltb_lt in E.
    assert (n = 0 \/ n = 1)%Z as [-> | ->] by lia; reflexivity.
  - apply Z.ltb_ge in E. f_equal.
    pose proof (choose_2 (Z.to_nat n)) as P.
    apply (f_equal Z.of_nat) in P.
    rewrite !Nat2Z.inj_mul, Nat2Z.inj_sub, Z2Nat.id in P by lia.
    change (Z.to_nat 2) with 2%nat.
    change (Z.of_nat 2) with 2%Z in P. change (Z.of_nat 1) with 1%Z in P.
    rewrite <- P, Z.mul_comm, Z.div_mul by lia. reflexivity.
Qed.


End PairCountFacts.

(** ** The pruning test *)

Section PrunableFacts.
Context {D B : Type} `{Arith D}.
Variable h : Heap D B.
Variable tree_nodes : ArrayList3 ptr.
Variable e : GradientErrors D.
Variable c : PairCounts D.
Variable relative_error total : D.

Lemma Prunable_verdicts :
  Prunable_ h tree_nodes e c relative_error total =
  slot0_verdict h tree_nodes e c relative_error total &&
  slot1_verdict h tree_nodes e c relative_error total &&
  slot2_verdict h tree_nodes e c relative_error total.
Proof.
  unfold Prunable_, slot2_verdict, slot1_verdict, slot0_verdict.
  destruct (first_node_test h tree_nodes e c relative_error total);
    simpl; [|reflexivity].
  destruct (Pos.eqb (at1 tree_nodes) (at0 tree_nodes)); simpl.
  - destruct (Pos.eqb (at2 tree_nodes) (at1 tree_nodes)); reflexivity.
  - destruct (second_node_test h tree_nodes e c relative_error total);
      simpl; [|reflexivity].
    reflexivity.
Qed.

(** C6. [Prunable_] returns true exactly when the three slot tests pass,
    the test of slot 1 being the verdict of slot 0 when both slots hold the
    same node and the test of slot 2 being the verdict of slot 1 when both
    hold the same node; and it returns false at the first slot test that
    fails, in the order of the slots. *)
Theorem Prunable_iff_all_slots :
  (Prunable_ h tree_nodes e c relative_error total = true <->
   slot0_verdict h tree_nodes e c relative_error total = true /\
   slot1_verdict h tree_nodes e c relative_error total = true /\
   slot2_verdict h tree_nodes e c relative_error total = true) /\
  (at1 tree_nodes = at0 tree_nodes ->
   slot1_verdict h tree_nodes e c relative_error total =
   slot0_verdict h tree_nodes e c relative_error total) /\
  (at2 tree_nodes = at1 tree_nodes ->
   slot2_verdict h tree_nodes e c relative_error total =
   slot1_verdict h tree_nodes e c relative_error total) /\
  (at1 tree_nodes <> at0 tree_nodes ->
   slot1_verdict h tree_nodes e c relative_error total =
   second_node_test h tree_nodes e c relative_error total) /\
  (at2 tree_nodes <> at1 tree_nodes ->
   slot2_verdict h tree_nodes e c relative_error total =
   third_node_test h tree_nodes e c relative_error total) /\
  (first_node_test h tree_nodes e c relative_error total = false ->
   Prunable_ h tree_nodes e c relative_error total = false) /\
  (first_node_test h tree_nodes e c relative_error total = true ->
   slot1_verdict h tree_nodes e c relative_error total = false ->
   Prunable_ h tree_nodes e c relative_error total = false) /\
  (first_node_test h tree_nodes e c relative_error total = true ->
   slot1_verdict h tree_nodes e c relative_error total = true ->
   Prunable_ h tree_nodes e c relative_error total =
   slot2_verdict h tree_nodes e c relative_error total).
Proof.
  split; [|split; [|split; [|split; [|split; [|split; [|split]]]]]].
  - rewrite Prunable_verdicts, !andb_true_iff. tauto.
  - intros E. unfold slot1_verdict.
    apply Pos.eqb_eq in E. rewrite E. reflexivity.
  - intros E. unfold slot2_verdict.
    apply Pos.eqb_eq in E. rewrite E. reflexivity.
  - intros N. unfold slot1_verdict.
    apply Pos.eqb_neq in N. rewrite N. reflexivity.
  - intros N. unfold slot2_verdict.
    apply Pos.eqb_neq in N. rewrite N. reflexivity.
  - intros F. unfold Prunable_. rewrite F. reflexivity.
  - intros T F. rewrite Prunable_verdicts. unfold slot0_verdict.
    rewrite T, F. reflexivity.
  - intros T1 T2. rewrite Prunable_verdicts. unfold slot0_verdict.
    rewrite T1, T2. reflexivity.
Qed.

End PrunableFacts.

(** ** The deterministic entry point *)

Section EvalFacts.
Context {D B : Type} `{Arith D} `{Libm D} `{Bound D B}.
Local Open Scope dbl_scope.

(** The minimum squared distances land in the upper triangle of
    [distmat_]. *)
Lemma distmat_upper (k : Kernel D) (h : Heap D B) (tree_nodes : ArrayList3 ptr)
    (ij : Z * Z) :
  In ij upper_pairs ->
  distmat_ (EvalMinMaxSquaredDistances k h tree_nodes) (fst ij) (snd ij) =
  MinDistanceSq (bound (h (at_ tree_nodes (fst ij))))
                (bound (h (at_ tree_nodes (snd ij)))).
Proof.
  intros [<- | [<- | [<- | []]]]; reflexivity.
Qed.

Lemma EvalMinMaxSquaredDistances_index_orders (k : Kernel D) (h : Heap D B)
    (tree_nodes : ArrayList3 ptr) :
  index_orders_ (EvalMinMaxSquaredDistances k h tree_nodes) = index_orders_ k.
Proof. reflexivity. Qed.

Lemma Eval_gradients_kernel (k : Kernel D) :
  fst (Eval_gradients k) = MkKernel (distmat_ k) (MkArrayList3 2 1 0)%Z.
Proof. reflexivity. Qed.

Lemma nan_or_inf_spec (g : GradientBounds D) :
  nan_or_inf g = true <->
  exists x, In x (twelve_bounds g) /\ (isnan x = true \/ isinf x = true).
Proof.
  unfold nan_or_inf, twelve_bounds. split.
  - rewrite !orb_true_iff. intros G.
    repeat match type of G with
           | _ \/ _ => destruct G as [G | G]
           end;
      (eexists; split; [|solve [left; exact G | right; exact G]]);
      simpl; tauto.
  - intros [x [I N]]. rewrite !orb_true_iff. simpl in I.
    repeat match type of I with
           | _ \/ _ => destruct I as [I | I]
           end; try contradiction; subst x; tauto.
Qed.

(** The three outcomes of [Eval]. *)
Lemma Eval_cases (k : Kernel D) (h : Heap D B) (tree_nodes : ArrayList3 ptr)
    (relative_error total : D) :
  let k1 := EvalMinMaxSquaredDistances k h tree_nodes in
  let k2 := fst (Eval_gradients k1) in
  let g := snd (Eval_gradients k1) in
  let e := ComputeGradientComponentError_ g in
  let c := Eval_pair_counts h tree_nodes in
  Eval k h tree_nodes relative_error total =
  if zero_min_distance k1 then (false, k1, h)
  else if nan_or_inf g then (false, k2, h)
  else if Prunable_ h tree_nodes e c relative_error total
       then (true, k2, Prune_ tree_nodes g c h)
       else (false, k2, h).
Proof.
  intros k1 k2 g e c. unfold Eval. fold k1.
  destruct (zero_min_distance k1); [reflexivity|].
  destruct (Eval_gradients k1) as [k2' g'] eqn:E.
  subst k2 g e. cbn [fst snd].
  destruct (nan_or_inf g'); [reflexivity|].
  fold c.
  destruct (Prunable_ h tree_nodes (ComputeGradientComponentError_ g') c
              relative_error total); reflexivity.
Qed.

(** C5. When the minimum squared distance of one of the three pairs of
    bounds is zero, or one of the twelve gradient bounds computed from the
    distance table is a NaN or infinite, [Eval] returns false; being a total
    function to a flag and a state, it has no other way to end. *)
Theorem Eval_refuses_degenerate (k : Kernel D) (h : Heap D B)
    (tree_nodes : ArrayList3 ptr) (relative_error total : D) :
  (exists ij, In ij upper_pairs /\
     (MinDistanceSq (bound (h (at_ tree_nodes (fst ij))))
                    (bound (h (at_ tree_nodes (snd ij)))) =? of_int 0) = true)
  \/
  (exists x,
     In x (twelve_bounds
             (snd (Eval_gradients
                     (EvalMinMaxSquaredDistances k h tree_nodes)))) /\
     (isnan x = true \/ isinf x = true)) ->
  fst (fst (Eval k h tree_nodes relative_error total)) = false.
Proof.
  intros Hdeg. rewrite Eval_cases. cbv zeta.
  destruct (zero_min_distance (EvalMinMaxSquaredDistances k h tree_nodes))
    eqn:Z; [reflexivity|].
  destruct Hdeg as [[ij [I E]] | N].
  - exfalso. unfold zero_min_distance in Z.
    assert (existsb
              (fun ij0 =>
                 distmat_ (EvalMinMaxSquaredDistances k h tree_nodes)
                   (fst ij0) (snd ij0) =? of_int 0) upper_pairs = true) as T.
    { apply existsb_exists. exists ij. split; [exact I|].
      rewrite distmat_upper by exact I. exact E. }
    rewrite T in Z. discriminate.
  - apply nan_or_inf_spec in N. rewrite N. reflexivity.
Qed.


(** Statistics are written on the branch that returns true only, and there
    by [Prune_]. *)
Lemma Eval_true_prunes (k : Kernel D) (h : Heap D B)
    (tree_nodes : ArrayList3 ptr) (relative_error total : D)
    (k' : Kernel D) (h' : Heap D B) :
  Eval k h tree_nodes relative_error total = (true, k', h') ->
  h' = Prune_ tree_nodes
         (snd (Eval_gradients (EvalMinMaxSquaredDistances k h tree_nodes)))
         (Eval_pair_counts h tree_nodes) h.
Proof.
  rewrite Eval_cases. cbv zeta.
  destruct (zero_min_distance _); [discriminate|].
  destruct (nan_or_inf _); [discriminate|].
  destruct (Prunable_ _ _ _ _ _ _); [|discriminate].
  intros E. injection E as <- <-. reflexivity.
Qed.

End EvalFacts.

(** ** Runs on concrete inputs *)


(** [Eval] refuses the triple (A, A, B) of [line_heap], whose first two
    slots are at distance zero, and the triple of [close_heap], for which
    the bounds overflow. *)
Lemma Eval_refuses_degenerate_witness :
  fst (fst (Eval kernel0 line_heap slots_AAB 1%float 1%float)) = false /\
  fst (fst (Eval kernel0 close_heap slots_ABC 1%float 1%float)) = false.
Proof.
  split.
  - apply Eval_refuses_degenerate. left.
    exists (0, 1)%Z. split; [simpl; tauto | vm_compute; reflexivity].
  - apply Eval_refuses_degenerate. right.
    exists PrimFloat.infinity. split.
    + vm_compute. tauto.
    + right. vm_compute. reflexivity.
Defined.



(** ** The Monte Carlo entry point *)

Section MonteCarloFacts.
Context {D B : Type} `{Arith D} `{Libm D} `{Bound D B}.
Variable RandInt : nat -> Z -> Z -> Z.
Variable data : Z -> Vector D.
Variable h : Heap D B.
Variable nodes : ArrayList3 ptr.
Variable z_score : D.

(** The loop is deterministic in its fuel: more fuel gives the same
    result. *)
Lemma MonteCarloEval_loop_more_fuel (fuel extra : nat) (s s' : Sampler) :
  MonteCarloEval_loop RandInt data h nodes z_score fuel s = Some s' ->
  MonteCarloEval_loop RandInt data h nodes z_score (fuel + extra) s = Some s'.
Proof.
  revert s. induction fuel as [|fuel IH]; intros s; simpl; [discriminate|].
  destruct (num_sample_trials_remaining
              (MonteCarloEval_body RandInt data h nodes z_score s) >? 0)%Z.
  - apply IH.
  - trivial.
Qed.

(** The loop ends only when the batch counter has left the positive
    numbers. *)
Lemma MonteCarloEval_loop_exit (fuel : nat) (s s' : Sampler) :
  MonteCarloEval_loop RandInt data h nodes z_score fuel s = Some s' ->
  (num_sample_trials_remaining s' <= 0)%Z.
Proof.
  revert s. induction fuel as [|fuel IH]; intros s; simpl; [discriminate|].
  destruct (num_sample_trials_remaining
              (MonteCarloEval_body RandInt data h nodes z_score s) >? 0)%Z
    eqn:E.
  - apply IH.
  - intros [= <-]. rewrite Z.gtb_ltb in E. apply Z.ltb_ge in E. exact E.
Qed.

(** A draw in strictly increasing order is a sample: the counter of the
    batch goes down by one; any other draw leaves the counters alone. *)
Lemma MonteCarloEval_body_counters (s : Sampler) :
  let s' := MonteCarloEval_body RandInt data h nodes z_score s in
  let i0 := RandInt (sampler_draws s)
              (begin_ (h (at0 nodes))) (end_ (h (at0 nodes))) in
  let i1 := RandInt (S (sampler_draws s))
              (begin_ (h (at1 nodes))) (end_ (h (at1 nodes))) in
  let i2 := RandInt (S (S (sampler_draws s)))
              (begin_ (h (at2 nodes))) (end_ (h (at2 nodes))) in
  sampler_draws s' = S (S (S (sampler_draws s))) /\
  sampler_indices s' = MkArrayList3 i0 i1 i2 /\
  (if ((i0 <? i1) && (i1 <? i2))%Z
   then num_sample_trials_remaining s' = (num_sample_trials_remaining s - 1)%Z
        /\ current_num_samples s' = (current_num_samples s + 1)%Z
   else num_sample_trials_remaining s' = num_sample_trials_remaining s
        /\ current_num_samples s' = current_num_samples s
        /\ sampler_kernel s' = sampler_kernel s
        /\ running_sums s' = running_sums s
        /\ running_bounds s' = running_bounds s).
Proof.
  intros s' i0 i1 i2. subst s'. unfold MonteCarloEval_body.
  fold i0 i1 i2. cbn [at0 at1 at2].
  destruct ((i0 <? i1) && (i1 <? i2))%Z; cbn [negb].
  - destruct (EvalGradients _ _ _ _ _ _ _) as [[[k1 g1] g2] g3].
    destruct g1 as [[[a1 ?] b1] ?], g2 as [[[a2 ?] b2] ?],
             g3 as [[[a3 ?] b3] ?].
    destruct (UpdateStatistics_ _ _ _). simpl. auto.
  - simpl. repeat split.
Qed.

(** With draws that are always in increasing order, a batch of [n] samples
    is completed by [n] executions of the body. *)
Lemma MonteCarloEval_loop_terminates (n : nat) (s : Sampler) :
  (forall m lo0 hi0 lo1 hi1 lo2 hi2,
     (RandInt m lo0 hi0 <? RandInt (S m) lo1 hi1)%Z &&
     (RandInt (S m) lo1 hi1 <? RandInt (S (S m)) lo2 hi2)%Z = true) ->
  num_sample_trials_remaining s = Z.of_nat (S n) ->
  exists s',
    MonteCarloEval_loop RandInt data h nodes z_score (S n) s = Some s' /\
    num_sample_trials_remaining s' = 0%Z /\
    current_num_samples s' = (current_num_samples s + Z.of_nat (S n))%Z.
Proof.
  intros V. revert s. induction n as [|n IH]; intros s R.
  - pose proof (MonteCarloEval_body_counters s) as C. cbv zeta in C.
    rewrite V in C. destruct C as [_ [_ [C1 C2]]].
    cbn [MonteCarloEval_loop]. rewrite C1, R. simpl.
    eexists. split; [reflexivity|]. split; [rewrite C1, R; reflexivity|].
    rewrite C2. reflexivity.
  - pose proof (MonteCarloEval_body_counters s) as C. cbv zeta in C.
    rewrite V in C. destruct C as [_ [_ [C1 C2]]].
    change (MonteCarloEval_loop RandInt data h nodes z_score (S (S n)) s)
      with (let s1 := MonteCarloEval_body RandInt data h nodes z_score s in
            if (num_sample_trials_remaining s1 >? 0)%Z
            then MonteCarloEval_loop RandInt data h nodes z_score (S n) s1
            else Some s1).
    cbv zeta.
    assert (num_sample_trials_remaining
              (MonteCarloEval_body RandInt data h nodes z_score s)
            = Z.of_nat (S n)) as R1 by (rewrite C1, R; lia).
    rewrite R1.
    replace (Z.of_nat (S n) >? 0)%Z with true
      by (symmetry; apply Z.gtb_lt; lia).
    destruct (IH _ R1) as [s' [L [Z0 N]]].
    exists s'. split; [exact L|]. split; [exact Z0|].
    rewrite N, C2. lia.
Qed.

(** The loop takes one batch and no more: entered with a positive batch
    counter, it ends, if it ends, with the counter at zero, having taken as
    many samples as the counter said. *)
Lemma MonteCarloEval_loop_one_batch (fuel : nat) (s s' : Sampler) :
  (0 < num_sample_trials_remaining s)%Z ->
  MonteCarloEval_loop RandInt data h nodes z_score fuel s = Some s' ->
  num_sample_trials_remaining s' = 0%Z /\
  current_num_samples s' =
    (current_num_samples s + num_sample_trials_remaining s)%Z.
Proof.
  revert s. induction fuel as [|fuel IH]; intros s P; simpl; [discriminate|].
  pose proof (MonteCarloEval_body_counters s) as C. cbv zeta in C.
  destruct C as [_ [_ C]].
  destruct (num_sample_trials_remaining
              (MonteCarloEval_body RandInt data h nodes z_score s) >? 0)%Z
    eqn:E.
  - intros L. apply Z.gtb_lt in E. destruct (IH _ E L) as [Z0 N].
    split; [exact Z0|]. rewrite N.
    destruct (_ && _); destruct C as [C1 [C2 _]] || destruct C as [C1 C2];
      rewrite C1, C2; lia.
  - intros [= <-]. rewrite Z.gtb_ltb in E. apply Z.ltb_ge in E.
    destruct (_ && _); destruct C as [C1 [C2 _]] || destruct C as [C1 C2];
      rewrite C1 in E |- *; rewrite C2; split; lia.
Qed.

(** C9. Whenever [MonteCarloEval] terminates it returns false with the heap
    it was given, so that no statistics record has been modified; and the
    whole outcome is the same for every [relative_error] and
    [total_n_minus_one_num_tuples], whatever the draws. *)
Theorem MonteCarloEval_returns_false (fuel : nat) (k : Kernel D)
    (indices : ArrayList3 Z) (relative_error total : D)
    (b : bool) (k' : Kernel D) (indices' : ArrayList3 Z) (h' : Heap D B) :
  MonteCarloEval RandInt data h nodes z_score fuel k indices
    relative_error total = Some (b, k', indices', h') ->
  b = false /\ h' = h /\
  (forall p, stat (h' p) = stat (h p)) /\
  forall relative_error' total' fuel',
    (fuel <= fuel')%nat ->
    MonteCarloEval RandInt data h nodes z_score fuel' k indices
      relative_error' total' = Some (false, k', indices', h).
Proof.
  unfold MonteCarloEval.
  destruct (MonteCarloEval_loop RandInt data h nodes z_score fuel
              (MonteCarloEval_init k indices)) as [s|] eqn:L;
    [|discriminate].
  intros [= <- <- <- <-].
  split; [reflexivity|]. split; [reflexivity|]. split; [reflexivity|].
  intros r' t' fuel' Hf.
  replace fuel' with (fuel + (fuel' - fuel))%nat by lia.
  rewrite (MonteCarloEval_loop_more_fuel _ _ _ L). reflexivity.
Qed.

End MonteCarloFacts.

(** A run on the region of [cloud_heap] in the three slots: 37 executions
    of the body, 25 of which draw a sample. *)
Lemma MonteCarloEval_returns_false_witness :
  exists k' indices',
    MonteCarloEval cycling_draws sample_points cloud_heap slots_AAA 2%float
      37 kernel0 indices0 1%float 1%float
    = Some (false, k', indices', cloud_heap) /\
    MonteCarloEval cycling_draws sample_points cloud_heap slots_AAA 2%float
      40 kernel0 indices0 0%float 7%float
    = Some (false, k', indices', cloud_heap).
Proof.
  eexists. eexists.
  assert (MonteCarloEval cycling_draws sample_points cloud_heap slots_AAA
            2%float 37 kernel0 indices0 1%float 1%float
          = Some (false,
                  snd (fst (fst (match MonteCarloEval cycling_draws
                                   sample_points cloud_heap slots_AAA 2%float
                                   37 kernel0 indices0 1%float 1%float with
                                 | Some r => r
                                 | None => (false, kernel0, indices0, cloud_heap)
                                 end))),
                  (MkArrayList3 0 1 2)%Z, cloud_heap)) as R.
  { vm_compute. reflexivity. }
  split.
  - exact R.
  - refine (proj2 (proj2 (proj2
      (MonteCarloEval_returns_false cycling_draws sample_points cloud_heap
         slots_AAA 2%float 37 kernel0 indices0 1%float 1%float R)))
      0%float 7%float 40%nat _).
    repeat constructor.
Defined.

(** C1, on the code.  On the region of [cloud_heap] the first batch of 25
    samples is complete after 37 executions of the loop body; the
    statistical errors of that batch satisfy the criterion of [Prunable_]
    for [relative_error = 1] and a normalizer of 1; [MonteCarloEval]
    nevertheless returns false and leaves the heap as it was: its loop
    computes the errors and then ends, and neither [Prunable_] nor [Prune_]
    is called. *)
Lemma MonteCarloEval_ignores_satisfied_criterion :
  exists s,
    MonteCarloEval_loop cycling_draws sample_points cloud_heap slots_AAA
      2%float 37 (MonteCarloEval_init kernel0 indices0) = Some s /\
    num_sample_trials_remaining s = 0%Z /\
    current_num_samples s = 25%Z /\
    Prunable_ cloud_heap slots_AAA
      (ComputeMonteCarloGradientComponentError_ (running_sums s)
         (current_num_samples s) 2%float)
      (ComputeNumTwoTuples_ cloud_heap slots_AAA) 1%float 1%float = true /\
    exists k' indices',
      MonteCarloEval cycling_draws sample_points cloud_heap slots_AAA 2%float
        37 kernel0 indices0 1%float 1%float
      = Some (false, k', indices', cloud_heap).
Proof.
  eexists. split; [vm_compute; reflexivity|].
  split; [vm_compute; reflexivity|].
  split; [vm_compute; reflexivity|].
  split; [vm_compute; reflexivity|].
  eexists. eexists. vm_compute. reflexivity.
Qed.

(** ** The budgets of the slot tests *)

Section BudgetFacts.
Context {D B : Type} `{Arith D}.
Variable h : Heap D B.
Variable tree_nodes : ArrayList3 ptr.
Variable e : GradientErrors D.
Variable c : PairCounts D.
Variable relative_error total : D.

(** The tests of slots 1 and 2 are the documented ones. *)
Lemma second_node_test_documented :
  second_node_test h tree_nodes e c relative_error total =
  documented_slot_test relative_error total
    (h (at1 tree_nodes)) (h (at0 tree_nodes)) (h (at2 tree_nodes))
    (negative_gradient1_error e) (positive_gradient1_error e)
    (negative_gradient3_error e) (positive_gradient3_error e)
    (num_ik_pairs c).
Proof. reflexivity. Qed.

Lemma third_node_test_documented :
  third_node_test h tree_nodes e c relative_error total =
  documented_slot_test relative_error total
    (h (at2 tree_nodes)) (h (at0 tree_nodes)) (h (at1 tree_nodes))
    (negative_gradient2_error e) (positive_gradient2_error e)
    (negative_gradient3_error e) (positive_gradient3_error e)
    (num_ij_pairs c).
Proof. reflexivity. Qed.

End BudgetFacts.

(** C2, on the code.  In [deferred_heap] the region of slot 0 has a zero
    [negative_gradient2_u] and a postponed bound of L1 norm 3.  With errors
    of 0.25 the cross term of slot 0 on the negative gradient is 1.75; the
    budget of the source, which leaves the postponed bound out, is 0 and
    the test fails, whereas the budget with the postponed bound is 36 and
    every comparison of the three slots holds. *)
Lemma Prunable_slot0_omits_postponed :
  Prunable_ deferred_heap slots_ABC quarter_errors
    (Eval_pair_counts deferred_heap slots_ABC) 1%float 1%float = false /\
  documented_Prunable deferred_heap slots_ABC quarter_errors
    (Eval_pair_counts deferred_heap slots_ABC) 1%float 1%float = true /\
  L1Norm_ (negative_gradient2_u (stat (deferred_heap 1%positive)))
    = 0%float /\
  L1Norm_ (postponed_negative_gradient2_u (stat (deferred_heap 1%positive)))
    = 3%float /\
  second_node_test deferred_heap slots_ABC quarter_errors
    (Eval_pair_counts deferred_heap slots_ABC) 1%float 1%float = true /\
  third_node_test deferred_heap slots_ABC quarter_errors
    (Eval_pair_counts deferred_heap slots_ABC) 1%float 1%float = true.
Proof.
  repeat split; vm_compute; reflexivity.
Qed.

(** ** The pair counts of the deterministic path *)

Section EvalPairCounts.
Context {D B : Type} `{Arith D} `{Libm D} `{Bound D B}.
Local Open Scope dbl_scope.

Lemma zero_min_distance_false (k : Kernel D) (h : Heap D B)
    (tree_nodes : ArrayList3 ptr) (ij : Z * Z) :
  zero_min_distance (EvalMinMaxSquaredDistances k h tree_nodes) = false ->
  In ij upper_pairs ->
  (MinDistanceSq (bound (h (at_ tree_nodes (fst ij))))
                 (bound (h (at_ tree_nodes (snd ij)))) =? of_int 0) = false.
Proof.
  intros Hz I. unfold zero_min_distance in Hz.
  rewrite <- (distmat_upper k h tree_nodes I).
  destruct (distmat_ (EvalMinMaxSquaredDistances k h tree_nodes)
              (fst ij) (snd ij) =? of_int 0) eqn:E; [|reflexivity].
  assert (existsb
            (fun ij0 =>
               distmat_ (EvalMinMaxSquaredDistances k h tree_nodes)
                 (fst ij0) (snd ij0) =? of_int 0) upper_pairs = true) as T.
  { apply existsb_exists. exists ij. split; assumption. }
  rewrite T in Hz. discriminate.
Qed.

(** A triple that passes the zero-distance test has three distinct nodes
    in its slots, when the bound of each is at minimum distance zero from
    itself. *)
Lemma Eval_test_reached_distinct (k : Kernel D) (h : Heap D B)
    (tree_nodes : ArrayList3 ptr) :
  zero_min_distance (EvalMinMaxSquaredDistances k h tree_nodes) = false ->
  (forall p, In p [at0 tree_nodes; at1 tree_nodes; at2 tree_nodes] ->
     (MinDistanceSq (bound (h p)) (bound (h p)) =? of_int 0) = true) ->
  at0 tree_nodes <> at1 tree_nodes /\
  at1 tree_nodes <> at2 tree_nodes /\
  at0 tree_nodes <> at2 tree_nodes.
Proof.
  intros Hz Self.
  assert (apart : forall ij, In ij upper_pairs ->
            at_ tree_nodes (fst ij) <> at_ tree_nodes (snd ij)).
  { intros ij I E.
    pose proof (@zero_min_distance_false k h tree_nodes ij Hz I) as F.
    rewrite <- E, Self in F; [discriminate|].
    destruct I as [<- | [<- | [<- | []]]]; simpl; tauto. }
  split; [|split].
  - apply (apart (0, 1)%Z). simpl. tauto.
  - apply (apart (1, 2)%Z). simpl. tauto.
  - apply (apart (0, 2)%Z). simpl. tauto.
Qed.


End EvalPairCounts.



(** ** The propagation *)

Section ExecuteFacts.
Context {D B : Type}.

Lemma same_reads_refl (h : Heap D B) : same_reads h h.
Proof. intros p. split; reflexivity. Qed.

Lemma same_reads_trans (h1 h2 h3 : Heap D B) :
  same_reads h1 h2 -> same_reads h2 h3 -> same_reads h1 h3.
Proof.
  intros R1 R2 p. destruct (R1 p) as [c1 s1], (R2 p) as [c2 s2].
  split; congruence.
Qed.

Lemma same_reads_sym (h1 h2 : Heap D B) :
  same_reads h1 h2 -> same_reads h2 h1.
Proof. intros R p. destruct (R p). split; congruence. Qed.

Lemma modify_stat_target (h : Heap D B) (p : ptr)
    (f : Statistics D -> Statistics D) :
  modify_stat h p f p = set_stat (f (stat (h p))) (h p).
Proof. unfold modify_stat. rewrite Pos.eqb_refl. reflexivity. Qed.

Lemma modify_stat_other (h : Heap D B) (p q : ptr)
    (f : Statistics D -> Statistics D) :
  q <> p -> modify_stat h p f q = h q.
Proof.
  intros N. unfold modify_stat. apply Pos.eqb_neq in N. rewrite N.
  reflexivity.
Qed.

Lemma execute_other (p q : ptr) (body : list Statement) (h : Heap D B) :
  q <> p -> execute p body h q = h q.
Proof.
  intros N. unfold execute. revert h.
  induction body as [|st body IH]; intros h; simpl; [reflexivity|].
  rewrite IH. apply modify_stat_other. exact N.
Qed.

Lemma modify_stat_reads (h h' : Heap D B) (p : ptr)
    (f f' : Statistics D -> Statistics D) :
  same_reads h h' ->
  (forall s, coordinate_sum_ (f s) = coordinate_sum_ s) ->
  (forall s, coordinate_sum_ (f' s) = coordinate_sum_ s) ->
  same_reads (modify_stat h p f) (modify_stat h' p f').
Proof.
  intros R F F' q. destruct (R q) as [Rc Rs]. unfold modify_stat.
  destruct (Pos.eqb q p); simpl.
  - rewrite F, F'. split; assumption.
  - split; assumption.
Qed.

(** Executing a block of such statements gives, at the node of the block,
    a result fixed by the node and by what is read of the heap. *)
Lemma execute_congr (p : ptr) (body : list Statement) :
  Forall postpones body ->
  forall h h' : Heap D B,
    same_reads h h' -> h p = h' p ->
    same_reads (execute p body h) (execute p body h') /\
    execute p body h p = execute p body h' p.
Proof.
  unfold execute.
  induction 1 as [|st body [P1 P2] _ IH]; intros h h' R E; simpl.
  - split; assumption.
  - apply IH.
    + apply modify_stat_reads; [exact R | |]; intros s; apply P1.
    + rewrite !modify_stat_target, E, (P2 h h' _ R). reflexivity.
Qed.

Lemma execute_reads (p : ptr) (body : list Statement) (h : Heap D B) :
  Forall postpones body -> same_reads (execute p body h) h.
Proof.
  unfold execute. intros F. revert h.
  induction F as [|st body [P1 P2] _ IH]; intros h; simpl.
  - apply same_reads_refl.
  - eapply same_reads_trans; [apply IH|].
    intros q. unfold modify_stat. destruct (Pos.eqb q p); simpl.
    + split; [reflexivity | apply P1].
    + split; reflexivity.
Qed.

Lemma same_region_trans (n1 n2 n3 : TreeNode D B) :
  same_region n1 n2 -> same_region n2 n3 -> same_region n1 n3.
Proof.
  unfold same_region, same_accumulated. intros R1 R2.
  repeat split; (etransitivity; [apply R1 | apply R2]).
Qed.

Lemma modify_stat_region (h : Heap D B) (p q : ptr)
    (f : Statistics D -> Statistics D) :
  (forall s, same_accumulated (f s) s) ->
  same_region (modify_stat h p f q) (h q).
Proof.
  intros F. unfold modify_stat. destruct (Pos.eqb q p).
  - unfold same_region. simpl. repeat split; apply F.
  - repeat split.
Qed.

(** A block changes nothing of a node but the postponed members of its
    statistics. *)
Lemma execute_region (p : ptr) (body : list Statement) (h : Heap D B)
    (q : ptr) :
  Forall postpones body -> same_region (execute p body h q) (h q).
Proof.
  unfold execute. intros F. revert h.
  induction F as [|st body [P1 P2] _ IH]; intros h; simpl.
  - repeat split.
  - eapply same_region_trans; [apply IH|].
    apply modify_stat_region. intros s. apply P1.
Qed.

(** Two blocks on different nodes can be executed in either order. *)
Lemma execute_commute (p p' : ptr) (body body' : list Statement)
    (h : Heap D B) (q : ptr) :
  Forall postpones body -> Forall postpones body' -> p <> p' ->
  execute p body (execute p' body' h) q =
  execute p' body' (execute p body h) q.
Proof.
  intros F F' N.
  destruct (Pos.eq_dec q p) as [-> | Np].
  - rewrite (execute_other body' (execute p body h) N).
    apply execute_congr; [exact F | apply execute_reads; exact F' |].
    apply execute_other. exact N.
  - destruct (Pos.eq_dec q p') as [-> | Np'].
    + rewrite (execute_other body (execute p' body' h) Np).
      symmetry.
      apply execute_congr; [exact F' | apply execute_reads; exact F |].
      apply execute_other. exact Np.
    + rewrite !execute_other by assumption. reflexivity.
Qed.

(** A block respects the pointwise equality of heaps. *)
Lemma execute_ext (p : ptr) (body : list Statement) (h h' : Heap D B) :
  Forall postpones body -> (forall q, h q = h' q) ->
  forall q, execute p body h q = execute p body h' q.
Proof.
  intros F E q. destruct (Pos.eq_dec q p) as [-> | N].
  - apply execute_congr; [exact F | | apply E].
    intros r. rewrite E. split; reflexivity.
  - rewrite !execute_other by exact N. apply E.
Qed.

End ExecuteFacts.

Section PruneFacts.
Context {D B : Type} `{Arith D}.
Variable tree_nodes : ArrayList3 ptr.
Variable g : GradientBounds D.
Variable c : PairCounts D.

Ltac postpones_all :=
  repeat (apply Forall_cons;
          [split;
           [intros h s; repeat split
           |intros h h' s R;
            pose proof (R (at0 tree_nodes)) as [? ?];
            pose proof (R (at1 tree_nodes)) as [? ?];
            pose proof (R (at2 tree_nodes)) as [? ?];
            congruence]
          |]);
  apply Forall_nil.

Lemma Prune_node0_body_postpones :
  Forall (postpones (D:=D) (B:=B)) (Prune_node0_body tree_nodes g c).
Proof. unfold Prune_node0_body. postpones_all. Qed.

Lemma Prune_node1_body_postpones :
  Forall (postpones (D:=D) (B:=B)) (Prune_node1_body tree_nodes g c).
Proof. unfold Prune_node1_body. postpones_all. Qed.

Lemma Prune_node2_body_postpones :
  Forall (postpones (D:=D) (B:=B)) (Prune_node2_body tree_nodes g c).
Proof. unfold Prune_node2_body. postpones_all. Qed.

Lemma Prune_block_as_execute (s : slot) (h : Heap D B) :
  (exists body, Forall postpones body /\
     forall h' : Heap D B,
       Prune_block tree_nodes g c s h' =
       execute (Prune_target tree_nodes s) body h') \/
  (forall h' : Heap D B, Prune_block tree_nodes g c s h' = h').
Proof.
  destruct s; cbn [Prune_block Prune_target].
  - left. exists (Prune_node0_body tree_nodes g c).
    split; [apply Prune_node0_body_postpones | reflexivity].
  - unfold Prune_node1.
    destruct (Pos.eqb (at1 tree_nodes) (at0 tree_nodes)); cbn [negb].
    + right. reflexivity.
    + left. exists (Prune_node1_body tree_nodes g c).
      split; [apply Prune_node1_body_postpones | reflexivity].
  - unfold Prune_node2.
    destruct (Pos.eqb (at2 tree_nodes) (at1 tree_nodes)); cbn [negb].
    + right. reflexivity.
    + left. exists (Prune_node2_body tree_nodes g c).
      split; [apply Prune_node2_body_postpones | reflexivity].
Qed.

Lemma Prune_block_other (s : slot) (h : Heap D B) (q : ptr) :
  q <> Prune_target tree_nodes s -> Prune_block tree_nodes g c s h q = h q.
Proof.
  intros N. destruct (Prune_block_as_execute s h) as [[body [F E]] | E];
    rewrite E; [apply execute_other; exact N | reflexivity].
Qed.

Lemma Prune_block_region (s : slot) (h : Heap D B) (q : ptr) :
  same_region (Prune_block tree_nodes g c s h q) (h q).
Proof.
  destruct (Prune_block_as_execute s h) as [[body [F E]] | E]; rewrite E.
  - apply execute_region. exact F.
  - repeat split.
Qed.

Lemma Prune_block_ext (s : slot) (h h' : Heap D B) :
  (forall q, h q = h' q) ->
  forall q, Prune_block tree_nodes g c s h q =
            Prune_block tree_nodes g c s h' q.
Proof.
  intros E q. destruct (Prune_block_as_execute s h) as [[body [F X]] | X];
    rewrite !X; [apply execute_ext; assumption | apply E].
Qed.

Lemma Prune_block_skipped (s : slot) (h : Heap D B) :
  Prune_writes tree_nodes s = false -> Prune_block tree_nodes g c s h = h.
Proof.
  destruct s; simpl; [discriminate| |].
  - unfold Prune_node1. intros ->. reflexivity.
  - unfold Prune_node2. intros ->. reflexivity.
Qed.

Lemma Prune_block_commute (s s' : slot) (h : Heap D B) (q : ptr) :
  (Prune_writes tree_nodes s = true -> Prune_writes tree_nodes s' = true ->
   Prune_target tree_nodes s <> Prune_target tree_nodes s') ->
  Prune_block tree_nodes g c s (Prune_block tree_nodes g c s' h) q =
  Prune_block tree_nodes g c s' (Prune_block tree_nodes g c s h) q.
Proof.
  intros N.
  destruct (Prune_writes tree_nodes s) eqn:W.
  2:{ rewrite !(Prune_block_skipped s) by exact W. reflexivity. }
  destruct (Prune_writes tree_nodes s') eqn:W'.
  2:{ rewrite !(Prune_block_skipped s') by exact W'. reflexivity. }
  specialize (N eq_refl eq_refl).
  destruct (Prune_block_as_execute s h) as [[body [F E]] | E];
    destruct (Prune_block_as_execute s' h) as [[body' [F' E']] | E'];
    rewrite ?E, ?E'; try reflexivity.
  apply execute_commute; assumption.
Qed.

End PruneFacts.

(** Three transformers of the heap that commute pairwise give the same heap
    in each of their six orders. *)
Section AnyOrder.
Context {D B : Type}.
Variable block : slot -> Heap D B -> Heap D B.
Hypothesis block_ext :
  forall s h h', (forall q, h q = h' q) ->
                 forall q, block s h q = block s h' q.
Hypothesis block_commute :
  forall s s' h q, s <> s' ->
                   block s (block s' h) q = block s' (block s h) q.

Lemma any_order (s1 s2 s3 : slot) (h : Heap D B) (q : ptr) :
  s1 <> s2 -> s2 <> s3 -> s1 <> s3 ->
  block s3 (block s2 (block s1 h)) q =
  block Slot2 (block Slot1 (block Slot0 h)) q.
Proof.
  intros N12 N23 N13.
  destruct s1, s2, s3; try contradiction; try reflexivity.
  - apply block_commute. discriminate.
  - apply block_ext. intros r. apply block_commute. discriminate.
  - rewrite block_commute by discriminate.
    apply block_ext. intros r. apply block_commute. discriminate.
  - rewrite (@block_ext Slot1 _ _
               (fun r => @block_commute Slot0 Slot2 h r ltac:(discriminate))).
    apply block_commute. discriminate.
  - rewrite block_commute by discriminate.
    rewrite (@block_ext Slot1 _ _
               (fun r => @block_commute Slot0 Slot2 h r ltac:(discriminate))).
    apply block_commute. discriminate.
Qed.

End AnyOrder.

Section PruneOrder.
Context {D B : Type} `{Arith D}.
Variable tree_nodes : ArrayList3 ptr.
Variable g : GradientBounds D.
Variable c : PairCounts D.

Lemma Prune_targets_distinct (s s' : slot) :
  at2 tree_nodes <> at0 tree_nodes \/ at2 tree_nodes = at1 tree_nodes ->
  s <> s' ->
  Prune_writes tree_nodes s = true -> Prune_writes tree_nodes s' = true ->
  Prune_target tree_nodes s <> Prune_target tree_nodes s'.
Proof.
  intros C N W W'.
  destruct s, s'; simpl in *; try congruence;
    rewrite ?negb_true_iff in *;
    repeat match goal with
           | E : Pos.eqb _ _ = false |- _ => apply Pos.eqb_neq in E
           end;
    try congruence;
    destruct C; congruence.
Qed.

Lemma Prune_as_blocks (h : Heap D B) :
  Prune_ tree_nodes g c h =
  Prune_block tree_nodes g c Slot2
    (Prune_block tree_nodes g c Slot1
       (Prune_block tree_nodes g c Slot0 h)).
Proof. reflexivity. Qed.

(** Unless slots 0 and 2 hold one node and slot 1 another, no two blocks
    write the same node, and every order of the blocks gives the heap of
    [Prune_]. *)
Lemma Prune_any_order (h : Heap D B) (s1 s2 s3 : slot) (q : ptr) :
  at2 tree_nodes <> at0 tree_nodes \/ at2 tree_nodes = at1 tree_nodes ->
  s1 <> s2 -> s2 <> s3 -> s1 <> s3 ->
  Prune_in_order tree_nodes g c [s1; s2; s3] h q =
  Prune_ tree_nodes g c h q.
Proof.
  intros C N12 N23 N13. rewrite Prune_as_blocks.
  unfold Prune_in_order. cbn [fold_left].
  apply any_order; try assumption.
  - intros s h0 h0' E r. apply Prune_block_ext. exact E.
  - intros s s' h0 r N. apply Prune_block_commute.
    apply Prune_targets_distinct; assumption.
Qed.


End PruneOrder.

(** On a call of [Eval] that prunes, the nodes being bounded by regions at
    minimum distance zero from themselves, the three slots hold distinct
    nodes, and the statistics it leaves do not depend on the order of the
    blocks. *)
Lemma Eval_prune_any_order {D B : Type} `{Arith D} `{Libm D} `{Bound D B}
    (k : Kernel D) (h : Heap D B) (tree_nodes : ArrayList3 ptr)
    (relative_error total : D) (k' : Kernel D) (h' : Heap D B)
    (s1 s2 s3 : slot) (q : ptr) :
  (forall p, In p [at0 tree_nodes; at1 tree_nodes; at2 tree_nodes] ->
     (MinDistanceSq (bound (h p)) (bound (h p)) =? of_int 0)%dbl = true) ->
  Eval k h tree_nodes relative_error total = (true, k', h') ->
  s1 <> s2 -> s2 <> s3 -> s1 <> s3 ->
  Prune_in_order tree_nodes
    (snd (Eval_gradients (EvalMinMaxSquaredDistances k h tree_nodes)))
    (Eval_pair_counts h tree_nodes) [s1; s2; s3] h q = h' q.
Proof.
  intros Self E N12 N23 N13.
  rewrite (Eval_true_prunes _ _ _ _ _ E).
  apply Prune_any_order; try assumption.
  left. rewrite Eval_cases in E. cbv zeta in E.
  destruct (zero_min_distance (EvalMinMaxSquaredDistances k h tree_nodes))
    eqn:Hz; [discriminate|].
  destruct (Eval_test_reached_distinct k h tree_nodes Hz Self)
    as [_ [_ N02]].
  congruence.
Qed.



(** ** Monotonicity of the pruning test in the tolerance *)

Section Monotone.
Context {B : Type}.
Local Open Scope Q_scope.

Lemma L1Norm_nonneg_from (v : Vector Q) (a : Q) :
  0 <= a -> 0 <= fold_left (fun length x => length + Qabs x) v a.
Proof.
  revert a. induction v as [|x v IH]; intros a Ha; simpl; [exact Ha|].
  apply IH. pose proof (Qabs_nonneg x). 
  replace 0 with (0 + 0) by reflexivity. apply Qplus_le_compat; assumption.
Qed.

Lemma L1Norm_nonneg (v : Vector Q) : 0 <= L1Norm_ v.
Proof. apply L1Norm_nonneg_from. apply Qle_refl. Qed.

(** The budget [(relative_error / total) * magnitude]. *)
Lemma own_budget_monotone (t F r r' : Q) :
  0 < t -> 0 <= F -> r <= r' -> (r / t) * F <= (r' / t) * F.
Proof.
  intros Ht HF Hr. apply Qmult_le_compat_r; [|exact HF].
  unfold Qdiv. apply Qmult_le_compat_r; [exact Hr|].
  apply Qinv_le_0_compat. apply Qlt_le_weak. exact Ht.
Qed.

(** The budget [relative_error * pairs / total * magnitude]. *)
Lemma cross_budget_monotone (t n L r r' : Q) :
  0 < t -> 0 <= n -> 0 <= L -> r <= r' ->
  r * n / t * L <= r' * n / t * L.
Proof.
  intros Ht Hn HL Hr. apply Qmult_le_compat_r; [|exact HL].
  unfold Qdiv. apply Qmult_le_compat_r.
  - apply Qmult_le_compat_r; assumption.
  - apply Qinv_le_0_compat. apply Qlt_le_weak. exact Ht.
Qed.

Lemma within_larger_budget (x b b' : Q) :
  b <= b' -> Qle_bool x b = true -> Qle_bool x b' = true.
Proof.
  intros Hb Hx. apply Qle_bool_iff. apply Qle_bool_iff in Hx.
  eapply Qle_trans; eassumption.
Qed.

Lemma Qplus_nonneg (a b : Q) : 0 <= a -> 0 <= b -> 0 <= a + b.
Proof.
  intros. replace 0 with (0 + 0) by reflexivity.
  apply Qplus_le_compat; assumption.
Qed.

Variable h : Heap Q B.
Variable tree_nodes : ArrayList3 ptr.
Variable e : GradientErrors Q.
Variable c : PairCounts Q.
Variable total : Q.

Hypothesis total_positive : 0 < total.
Hypothesis pairs_nonneg :
  0 <= num_jk_pairs c /\ 0 <= num_ik_pairs c /\ 0 <= num_ij_pairs c.
Hypothesis positive_bounds_nonneg :
  forall p, In p [at0 tree_nodes; at1 tree_nodes; at2 tree_nodes] ->
    0 <= positive_gradient1_l (stat (h p)) +
         postponed_positive_gradient1_l (stat (h p)).

Ltac budget :=
  first
    [ apply own_budget_monotone;
      [exact total_positive
      |first [apply Qabs_nonneg
             |apply positive_bounds_nonneg; simpl; tauto]
      |assumption]
    | apply cross_budget_monotone;
      [exact total_positive
      |apply pairs_nonneg
      |first [apply L1Norm_nonneg
             |apply Qplus_nonneg; apply L1Norm_nonneg]
      |assumption] ].

Ltac four_comparisons :=
  unfold first_node_test, second_node_test, third_node_test;
  cbn [leb add mul div fabs exactQ];
  rewrite !andb_true_iff; intros [[[A1 A2] A3] A4];
  repeat split;
  (eapply within_larger_budget; [|eassumption]); budget.

Lemma first_node_test_monotone (r r' : Q) :
  r <= r' ->
  first_node_test h tree_nodes e c r total = true ->
  first_node_test h tree_nodes e c r' total = true.
Proof. intros Hr. four_comparisons. Qed.

Lemma second_node_test_monotone (r r' : Q) :
  r <= r' ->
  second_node_test h tree_nodes e c r total = true ->
  second_node_test h tree_nodes e c r' total = true.
Proof. intros Hr. four_comparisons. Qed.

Lemma third_node_test_monotone (r r' : Q) :
  r <= r' ->
  third_node_test h tree_nodes e c r total = true ->
  third_node_test h tree_nodes e c r' total = true.
Proof. intros Hr. four_comparisons. Qed.

Lemma Prunable_grows (r r' : Q) :
  r <= r' ->
  Prunable_ h tree_nodes e c r total = true ->
  Prunable_ h tree_nodes e c r' total = true.
Proof.
  intros Hr. rewrite !Prunable_verdicts, !andb_true_iff.
  unfold slot2_verdict, slot1_verdict, slot0_verdict.
  intros [[T0 T1] T2].
  pose proof (first_node_test_monotone Hr) as M0.
  pose proof (second_node_test_monotone Hr) as M1.
  pose proof (third_node_test_monotone Hr) as M2.
  destruct (Pos.eqb (at1 tree_nodes) (at0 tree_nodes));
    destruct (Pos.eqb (at2 tree_nodes) (at1 tree_nodes)); auto.
Qed.

End Monotone.




(** * Further properties of the kernel *)

(** ** The distance table *)

Section TableFacts.
Context {D B : Type} `{Arith D} `{Libm D} `{Bound D B}.
Local Open Scope dbl_scope.

(** X1. After [EvalMinMaxSquaredDistances] on three nodes, for each pair
    [i < j] of slots the entry [(i, j)] of the table holds the minimum and
    the entry [(j, i)] the maximum squared distance of the two bounds; the
    diagonal, every entry outside the 3 x 3 block and [index_orders_] are
    left as they were. *)
Theorem EvalMinMaxSquaredDistances_table (k : Kernel D) (h : Heap D B)
    (tree_nodes : ArrayList3 ptr) :
  let k' := EvalMinMaxSquaredDistances k h tree_nodes in
  (forall i j, (0 <= i < j)%Z -> (j <= 2)%Z ->
     distmat_ k' i j =
       MinDistanceSq (bound (h (at_ tree_nodes i)))
                     (bound (h (at_ tree_nodes j))) /\
     distmat_ k' j i =
       MaxDistanceSq (bound (h (at_ tree_nodes i)))
                     (bound (h (at_ tree_nodes j)))) /\
  (forall r c, (r = c \/ r < 0 \/ 2 < r \/ c < 0 \/ 2 < c)%Z ->
     distmat_ k' r c = distmat_ k r c) /\
  index_orders_ k' = index_orders_ k.
Proof.
  cbv zeta. split; [|split].
  - intros i j Hij Hj.
    assert ((i = 0 /\ j = 1) \/ (i = 0 /\ j = 2) \/ (i = 1 /\ j = 2))%Z
      as [[-> ->] | [[-> ->] | [-> ->]]] by lia;
      split; reflexivity.
  - intros r c Out.
    unfold EvalMinMaxSquaredDistances, upper_pairs, Matrix_set.
    cbn [fold_left distmat_ fst snd].
    repeat match goal with
           | |- context [(?a =? ?b)%Z] =>
               destruct (Z.eqb_spec a b); cbn [andb]
           end; try reflexivity; exfalso; lia.
  - reflexivity.
Qed.

(** On a table whose entries [(i, j)] and [(j, i)] agree, [gradient_]
    computes the same value for a lower and for the matching upper
    bound. *)
Lemma gradient_on_symmetric_table (distmat : Matrix D)
    (index_orders : ArrayList3 Z) :
  (forall i j, distmat i j = distmat j i) ->
  fst (fst (fst (gradient_ distmat index_orders true true))) =
  snd (fst (fst (gradient_ distmat index_orders true true))) /\
  snd (fst (gradient_ distmat index_orders true true)) =
  snd (gradient_ distmat index_orders true true).
Proof.
  intros S. unfold gradient_. cbn [fst snd fill].
  rewrite (S (Z.max (at0 index_orders) (at1 index_orders))
             (Z.min (at0 index_orders) (at1 index_orders))).
  rewrite (S (Z.max (at0 index_orders) (at2 index_orders))
             (Z.min (at0 index_orders) (at2 index_orders))).
  rewrite (S (Z.max (at1 index_orders) (at2 index_orders))
             (Z.min (at1 index_orders) (at2 index_orders))).
  split; reflexivity.
Qed.

(** X2. On a triple of points the table is symmetric, and each of the six
    gradient components has one value: what [EvalGradients] returns as the
    lower bound is also what it would store through a [max_*] pointer that
    is not [NULL].  The value is the one the point overload of [Eval] and
    [MonteCarloEval] use. *)
Theorem point_gradients_exact (k : Kernel D) (data : Z -> Vector D)
    (indices : ArrayList3 Z) :
  let k1 := EvalMinMaxSquaredDistances_points k data indices in
  (forall i j, (0 <= i <= 2)%Z -> (0 <= j <= 2)%Z -> i <> j ->
     distmat_ k1 i j = distmat_ k1 j i /\
     distmat_ k1 i j =
       DistanceSqEuclidean (data (at_ indices (Z.min i j)))
                           (data (at_ indices (Z.max i j)))) /\
  let g := snd (Eval_gradients k1) in
  let s := snd (point_gradients k1) in
  (negative_gradient1 s = min_negative_gradient1 g /\
   negative_gradient1 s = max_negative_gradient1 g /\
   positive_gradient1 s = min_positive_gradient1 g /\
   positive_gradient1 s = max_positive_gradient1 g) /\
  (negative_gradient2 s = min_negative_gradient2 g /\
   negative_gradient2 s = max_negative_gradient2 g /\
   positive_gradient2 s = min_positive_gradient2 g /\
   positive_gradient2 s = max_positive_gradient2 g) /\
  (negative_gradient3 s = min_negative_gradient3 g /\
   negative_gradient3 s = max_negative_gradient3 g /\
   positive_gradient3 s = min_positive_gradient3 g /\
   positive_gradient3 s = max_positive_gradient3 g).
Proof.
  cbv zeta. split.
  - intros i j Hi Hj N.
    assert (i = 0 \/ i = 1 \/ i = 2)%Z as [-> | [-> | ->]] by lia;
      assert (j = 0 \/ j = 1 \/ j = 2)%Z as [-> | [-> | ->]] by lia;
      try congruence; split; reflexivity.
  - repeat split; reflexivity.
Qed.

End TableFacts.

(** ** What the deterministic entry point touches and what it depends on *)

Section EvalFootprint.
Context {D B : Type} `{Arith D} `{Libm D} `{Bound D B}.
Local Open Scope dbl_scope.

(** X3. Whatever [Eval] returns, the nodes outside the three slots are as
    they were, and of every node the count, the index range, the bound and
    the accumulated members of the statistics are as they were: only
    postponed members of the three nodes can have changed. *)
Theorem Eval_footprint (k : Kernel D) (h : Heap D B)
    (tree_nodes : ArrayList3 ptr) (relative_error total : D) :
  let h' := snd (Eval k h tree_nodes relative_error total) in
  (forall q, q <> at0 tree_nodes -> q <> at1 tree_nodes ->
             q <> at2 tree_nodes -> h' q = h q) /\
  (forall q, same_region (h' q) (h q)).
Proof.
  cbv zeta. rewrite Eval_cases. cbv zeta.
  assert (region_refl : forall q, same_region (h q) (h q))
    by (intros q; repeat split).
  destruct (zero_min_distance _); [split; [reflexivity | exact region_refl]|].
  destruct (nan_or_inf _); [split; [reflexivity | exact region_refl]|].
  destruct (Prunable_ _ _ _ _ _ _);
    [|split; [reflexivity | exact region_refl]].
  cbn [snd]. rewrite Prune_as_blocks. split.
  - intros q N0 N1 N2.
    rewrite !Prune_block_other by assumption. reflexivity.
  - intros q.
    eapply same_region_trans; [apply Prune_block_region|].
    eapply same_region_trans; [apply Prune_block_region|].
    apply Prune_block_region.
Qed.

(** X4. The verdict of [Eval] and the heap it leaves do not depend on what
    an earlier call left in the kernel: the six entries of the table that
    [gradient_] reads are written first, and [index_orders_] is written
    before it is read.  The kernel it leaves agrees on those entries and
    on [index_orders_] once the zero-distance test is passed. *)
Theorem Eval_ignores_scratch (k k' : Kernel D) (h : Heap D B)
    (tree_nodes : ArrayList3 ptr) (relative_error total : D) :
  fst (fst (Eval k h tree_nodes relative_error total)) =
  fst (fst (Eval k' h tree_nodes relative_error total)) /\
  snd (Eval k h tree_nodes relative_error total) =
  snd (Eval k' h tree_nodes relative_error total) /\
  (forall i j, (0 <= i <= 2)%Z -> (0 <= j <= 2)%Z -> i <> j ->
     distmat_ (snd (fst (Eval k h tree_nodes relative_error total))) i j =
     distmat_ (snd (fst (Eval k' h tree_nodes relative_error total))) i j).
Proof.
  rewrite !Eval_cases. cbv zeta.
  change (zero_min_distance (EvalMinMaxSquaredDistances k' h tree_nodes))
    with (zero_min_distance (EvalMinMaxSquaredDistances k h tree_nodes)).
  change (snd (Eval_gradients (EvalMinMaxSquaredDistances k' h tree_nodes)))
    with (snd (Eval_gradients (EvalMinMaxSquaredDistances k h tree_nodes))).
  assert (table : forall i j, (0 <= i <= 2)%Z -> (0 <= j <= 2)%Z -> i <> j ->
            distmat_ (EvalMinMaxSquaredDistances k h tree_nodes) i j =
            distmat_ (EvalMinMaxSquaredDistances k' h tree_nodes) i j).
  { intros i j Hi Hj N.
    assert (i = 0 \/ i = 1 \/ i = 2)%Z as [-> | [-> | ->]] by lia;
      assert (j = 0 \/ j = 1 \/ j = 2)%Z as [-> | [-> | ->]] by lia;
      try congruence; reflexivity. }
  destruct (zero_min_distance _); [repeat split; exact table|].
  destruct (nan_or_inf _); [repeat split; exact table|].
  destruct (Prunable_ _ _ _ _ _ _); repeat split; exact table.
Qed.

End EvalFootprint.

(** ** The sampling loop *)

Section SamplingFacts.
Context {D B : Type} `{Arith D} `{Libm D} `{Bound D B}.
Variable RandInt : nat -> Z -> Z -> Z.
Variable data : Z -> Vector D.
Variable h : Heap D B.
Variable nodes : ArrayList3 ptr.
Variable z_score : D.

(** The execution of the body that completes the batch is one that drew a
    sample. *)
Lemma MonteCarloEval_body_last (s : Sampler) :
  let s' := MonteCarloEval_body RandInt data h nodes z_score s in
  (0 < num_sample_trials_remaining s)%Z ->
  (num_sample_trials_remaining s' <= 0)%Z ->
  (at0 (sampler_indices s') < at1 (sampler_indices s'))%Z /\
  (at1 (sampler_indices s') < at2 (sampler_indices s'))%Z /\
  sampler_kernel s' =
    fst (point_gradients
           (EvalMinMaxSquaredDistances_points (sampler_kernel s) data
              (sampler_indices s'))).
Proof.
  cbv zeta. intros P Z0.
  pose proof (MonteCarloEval_body_counters RandInt data h nodes z_score s)
    as C. cbv zeta in C. destruct C as [_ [I C]].
  rewrite I. cbn [at0 at1 at2].
  destruct (_ && _)%bool eqn:V.
  - apply andb_true_iff in V. destruct V as [V1 V2].
    apply Z.ltb_lt in V1, V2. split; [exact V1|]. split; [exact V2|].
    unfold MonteCarloEval_body. cbn [at0 at1 at2]. rewrite andb_true_intro
      by (split; apply Z.ltb_lt; assumption).
    cbn [negb]. reflexivity.
  - destruct C as [C _]. rewrite C in Z0. lia.
Qed.

Lemma MonteCarloEval_loop_last (fuel : nat) (s s' : Sampler) :
  (0 < num_sample_trials_remaining s)%Z ->
  MonteCarloEval_loop RandInt data h nodes z_score fuel s = Some s' ->
  (at0 (sampler_indices s') < at1 (sampler_indices s'))%Z /\
  (at1 (sampler_indices s') < at2 (sampler_indices s'))%Z /\
  exists k0,
    sampler_kernel s' =
      fst (point_gradients
             (EvalMinMaxSquaredDistances_points k0 data
                (sampler_indices s'))).
Proof.
  revert s. induction fuel as [|fuel IH]; intros s P; simpl; [discriminate|].
  destruct (num_sample_trials_remaining
              (MonteCarloEval_body RandInt data h nodes z_score s) >? 0)%Z
    eqn:E.
  - apply Z.gtb_lt in E. apply IH. exact E.
  - intros [= <-]. rewrite Z.gtb_ltb in E. apply Z.ltb_ge in E.
    destruct (MonteCarloEval_body_last s P E) as [L1 [L2 K]].
    split; [exact L1|]. split; [exact L2|].
    exists (sampler_kernel s). exact K.
Qed.

(** X5. When [MonteCarloEval] returns, [indices] holds the last triple it
    drew, which is in strictly increasing order, the table holds the exact
    squared distances of these three points (entry [(i, j)] and entry
    [(j, i)] alike), and [index_orders_] is the order (2, 1, 0) left by
    [EvalGradients]. *)
Theorem MonteCarloEval_leaves_last_sample (fuel : nat) (k : Kernel D)
    (indices : ArrayList3 Z) (relative_error total : D)
    (b : bool) (k' : Kernel D) (indices' : ArrayList3 Z) (h' : Heap D B) :
  MonteCarloEval RandInt data h nodes z_score fuel k indices
    relative_error total = Some (b, k', indices', h') ->
  (at0 indices' < at1 indices' < at2 indices')%Z /\
  (forall i j, (0 <= i < j)%Z -> (j <= 2)%Z ->
     distmat_ k' i j =
       DistanceSqEuclidean (data (at_ indices' i)) (data (at_ indices' j)) /\
     distmat_ k' j i = distmat_ k' i j) /\
  index_orders_ k' = (MkArrayList3 2 1 0)%Z.
Proof.
  unfold MonteCarloEval.
  destruct (MonteCarloEval_loop RandInt data h nodes z_score fuel
              (MonteCarloEval_init k indices)) as [s|] eqn:L;
    [|discriminate].
  intros [= _ <- <- _].
  destruct (MonteCarloEval_loop_last fuel (MonteCarloEval_init k indices))
    with (s' := s) as [L1 [L2 [k0 K]]]; [reflexivity | exact L |].
  split; [split; assumption|]. rewrite K. split; [|reflexivity].
  intros i j Hij Hj.
  assert ((i = 0 /\ j = 1) \/ (i = 0 /\ j = 2) \/ (i = 1 /\ j = 2))%Z
    as [[-> ->] | [[-> ->] | [-> ->]]] by lia;
    split; reflexivity.
Qed.

(** As long as no draw is in increasing order the loop goes on. *)
Lemma MonteCarloEval_loop_starves (fuel : nat) (s : Sampler) :
  (forall n,
     ((RandInt n (begin_ (h (at0 nodes))) (end_ (h (at0 nodes))) <?
       RandInt (S n) (begin_ (h (at1 nodes))) (end_ (h (at1 nodes)))) &&
      (RandInt (S n) (begin_ (h (at1 nodes))) (end_ (h (at1 nodes))) <?
       RandInt (S (S n)) (begin_ (h (at2 nodes))) (end_ (h (at2 nodes)))))%Z
     = false) ->
  (0 < num_sample_trials_remaining s)%Z ->
  MonteCarloEval_loop RandInt data h nodes z_score fuel s = None.
Proof.
  intros Inv. revert s. induction fuel as [|fuel IH]; intros s P; simpl;
    [reflexivity|].
  pose proof (MonteCarloEval_body_counters RandInt data h nodes z_score s)
    as C. cbv zeta in C. rewrite Inv in C. destruct C as [_ [_ [C _]]].
  rewrite C.
  replace (num_sample_trials_remaining s >? 0)%Z with true
    by (symmetry; apply Z.gtb_lt; exact P).
  apply IH. rewrite C. exact P.
Qed.

(** X6. [MonteCarloEval] has no bound on its draws.  If the generator keeps
    to the range it is given and the index ranges of the three nodes leave
    no room for three increasing indices (the end of the third node is
    less than three past the begin of the first, as for a node of one or
    two points in all three slots), no draw is accepted and the call never
    returns. *)
Theorem MonteCarloEval_never_returns (fuel : nat) (k : Kernel D)
    (indices : ArrayList3 Z) (relative_error total : D) :
  (forall n lo hi, (lo < hi)%Z -> (lo <= RandInt n lo hi < hi)%Z) ->
  (begin_ (h (at0 nodes)) < end_ (h (at0 nodes)))%Z ->
  (begin_ (h (at1 nodes)) < end_ (h (at1 nodes)))%Z ->
  (begin_ (h (at2 nodes)) < end_ (h (at2 nodes)))%Z ->
  (end_ (h (at2 nodes)) - begin_ (h (at0 nodes)) < 3)%Z ->
  MonteCarloEval RandInt data h nodes z_score fuel k indices
    relative_error total = None.
Proof.
  intros Range R0 R1 R2 Narrow. unfold MonteCarloEval.
  rewrite MonteCarloEval_loop_starves; [reflexivity | | reflexivity].
  intros n.
  pose proof (Range n _ _ R0) as D0.
  pose proof (Range (S n) _ _ R1) as D1.
  pose proof (Range (S (S n)) _ _ R2) as D2.
  apply andb_false_iff.
  destruct (Z.ltb_spec
              (RandInt n (begin_ (h (at0 nodes))) (end_ (h (at0 nodes))))
              (RandInt (S n) (begin_ (h (at1 nodes)))
                 (end_ (h (at1 nodes))))); [|left; reflexivity].
  right. apply Z.ltb_ge. lia.
Qed.

End SamplingFacts.

(** A run of the loop on [cloud_heap]: the last triple drawn is
    (0, 1, 2). *)
Lemma MonteCarloEval_leaves_last_sample_witness :
  exists k' indices',
    MonteCarloEval cycling_draws sample_points cloud_heap slots_AAA 2%float
      37 kernel0 indices0 1%float 1%float
    = Some (false, k', indices', cloud_heap) /\
    (at0 indices' < at1 indices' < at2 indices')%Z /\
    index_orders_ k' = (MkArrayList3 2 1 0)%Z.
Proof.
  eexists. eexists.
  assert (MonteCarloEval cycling_draws sample_points cloud_heap slots_AAA
            2%float 37 kernel0 indices0 1%float 1%float
          = Some (false,
                  snd (fst (fst (match MonteCarloEval cycling_draws
                                   sample_points cloud_heap slots_AAA 2%float
                                   37 kernel0 indices0 1%float 1%float with
                                 | Some r => r
                                 | None => (false, kernel0, indices0, cloud_heap)
                                 end))),
                  (MkArrayList3 0 1 2)%Z, cloud_heap)) as R.
  { vm_compute. reflexivity. }
  split; [exact R|].
  pose proof (MonteCarloEval_leaves_last_sample cycling_draws sample_points
                cloud_heap slots_AAA 2%float 37 kernel0 indices0
                1%float 1%float R) as [I [_ O]].
  split; [exact I | exact O].
Defined.

(** A region of two points in the three slots, with a generator that keeps
    to its range: a thousand executions of the body do not end the loop. *)
Lemma MonteCarloEval_never_returns_witness :
  MonteCarloEval modular_draws sample_points pair_heap slots_AAA 2%float
    1000 kernel0 indices0 1%float 1%float = None.
Proof.
  apply MonteCarloEval_never_returns.
  - intros n lo hi L. unfold modular_draws.
    pose proof (Z.mod_pos_bound (Z.of_nat n) (hi - lo)) as M. lia.
  - reflexivity.
  - reflexivity.
  - reflexivity.
  - reflexivity.
Defined.

(** ** The exact evaluation of a triple of points *)

Section DirectFacts.
Context {D : Type} `{Arith D} `{Libm D}.
Local Open Scope dbl_scope.

Lemma assign_same {A : Type} (f : Z -> A) (i : Z) (v : A) :
  assign f i v i = v.
Proof. unfold assign. rewrite Z.eqb_refl. reflexivity. Qed.

Lemma assign_other {A : Type} (f : Z -> A) (i j : Z) (v : A) :
  j <> i -> assign f i v j = f j.
Proof.
  intros N. unfold assign. apply Z.eqb_neq in N. rewrite N. reflexivity.
Qed.

Lemma force_tight (k : Kernel D) (data : Z -> Vector D)
    (indices : ArrayList3 Z) (n1 p1 n2 p2 n3 p3 : D) (f : Forces D) (p : Z) :
  tight_at f p ->
  tight_at (force_ k data indices n1 p1 n2 p2 n3 p3 f) p.
Proof.
  intros [T1 [T2 [T3 T4]]]. unfold tight_at, force_, assign.
  cbn [negative_force1_e negative_force1_u positive_force1_l
       positive_force1_e negative_force2_e negative_force2_u
       positive_force2_l positive_force2_e].
  destruct (Z.eqb_spec p (at_ indices (at0 (index_orders_ k)))) as [<- | _].
  - rewrite T1, T2, T3, T4. repeat split.
  - repeat split; assumption.
Qed.

Lemma force_elsewhere (k : Kernel D) (data : Z -> Vector D)
    (indices : ArrayList3 Z) (n1 p1 n2 p2 n3 p3 : D) (f : Forces D) (p : Z) :
  p <> at_ indices (at0 (index_orders_ k)) ->
  let f' := force_ k data indices n1 p1 n2 p2 n3 p3 f in
  negative_force1_e f' p = negative_force1_e f p /\
  negative_force1_u f' p = negative_force1_u f p /\
  positive_force1_l f' p = positive_force1_l f p /\
  positive_force1_e f' p = positive_force1_e f p /\
  negative_force2_e f' p = negative_force2_e f p /\
  negative_force2_u f' p = negative_force2_u f p /\
  positive_force2_l f' p = positive_force2_l f p /\
  positive_force2_e f' p = positive_force2_e f p.
Proof.
  intros N. cbv zeta. unfold force_.
  cbn [negative_force1_e negative_force1_u positive_force1_l
       positive_force1_e negative_force2_e negative_force2_u
       positive_force2_l positive_force2_e].
  rewrite !assign_other by exact N. repeat split.
Qed.



End DirectFacts.


(** ** The scalar accumulators under the propagation *)

Section ScalarFacts.
Context {D B : Type} `{Arith D}.
Local Open Scope dbl_scope.
Variable tree_nodes : ArrayList3 ptr.
Variable g : GradientBounds D.
Variable c : PairCounts D.

Lemma stat_modify_target (h : Heap D B) (p : ptr)
    (f : Statistics D -> Statistics D) :
  stat (modify_stat h p f p) = f (stat (h p)).
Proof. rewrite modify_stat_target. reflexivity. Qed.

Lemma execute_cons (p : ptr) (st : Statement) (body : list Statement)
    (h : Heap D B) :
  execute p (st :: body) h = execute p body (modify_stat h p (st h)).
Proof. reflexivity. Qed.

Lemma execute_nil (p : ptr) (h : Heap D B) : execute p [] h = h.
Proof. reflexivity. Qed.

Ltac scalar_after F h p f :=
  let E := fresh "E" in
  eassert (E : F (stat (modify_stat h p f p)) = _)
    by (rewrite stat_modify_target;
        cbn [postponed_negative_gradient1_e postponed_negative_gradient1_u
             postponed_positive_gradient1_l postponed_positive_gradient1_e
             on_postponed_negative_gradient1_e
             on_postponed_negative_gradient1_u
             on_postponed_positive_gradient1_l
             on_postponed_positive_gradient1_e
             on_postponed_negative_gradient2_e
             on_postponed_negative_gradient2_u
             on_postponed_positive_gradient2_l
             on_postponed_positive_gradient2_e];
        reflexivity).

(** One statement of a block: the four scalar members after it, in terms
    of what they were before it. *)
Ltac scalar_step :=
  rewrite execute_cons;
  match goal with
  | |- context [execute ?p _ (modify_stat ?h ?p ?f)] =>
      scalar_after (@postponed_negative_gradient1_e D) h p f;
      scalar_after (@postponed_negative_gradient1_u D) h p f;
      scalar_after (@postponed_positive_gradient1_l D) h p f;
      scalar_after (@postponed_positive_gradient1_e D) h p f;
      let h' := fresh "h" in
      set (h' := modify_stat h p f) in *; clearbody h'
  end.

Ltac scalars :=
  unfold Prune_node0_body, Prune_node1_body, Prune_node2_body;
  repeat scalar_step; rewrite execute_nil;
  repeat match goal with
         | E : _ = _ |- _ => rewrite E; clear E
         end;
  repeat split.

(** The four scalar members after the block of a slot: each has received
    one amount, weighted by the pair count of the slot. *)
Lemma Prune_node0_body_scalars (h : Heap D B) (p : ptr) :
  let s := stat (h p) in
  let s' := stat (execute p (Prune_node0_body tree_nodes g c) h p) in
  postponed_negative_gradient1_e s' =
    postponed_negative_gradient1_e s +
    num_jk_pairs c * half *
    (min_negative_gradient1 g + max_negative_gradient1 g +
     min_negative_gradient2 g + max_negative_gradient2 g) /\
  postponed_negative_gradient1_u s' =
    postponed_negative_gradient1_u s +
    num_jk_pairs c * (max_negative_gradient1 g + max_negative_gradient2 g) /\
  postponed_positive_gradient1_l s' =
    postponed_positive_gradient1_l s +
    num_jk_pairs c * (min_positive_gradient1 g + min_positive_gradient2 g) /\
  postponed_positive_gradient1_e s' =
    postponed_positive_gradient1_e s +
    num_jk_pairs c * half *
    (min_positive_gradient1 g + max_positive_gradient1 g +
     min_positive_gradient2 g + max_positive_gradient2 g).
Proof. cbv zeta. scalars. Qed.

Lemma Prune_node1_body_scalars (h : Heap D B) (p : ptr) :
  let s := stat (h p) in
  let s' := stat (execute p (Prune_node1_body tree_nodes g c) h p) in
  postponed_negative_gradient1_e s' =
    postponed_negative_gradient1_e s +
    num_ik_pairs c * half *
    (min_negative_gradient1 g + max_negative_gradient1 g +
     min_negative_gradient3 g + max_negative_gradient3 g) /\
  postponed_negative_gradient1_u s' =
    postponed_negative_gradient1_u s +
    num_ik_pairs c * (max_negative_gradient1 g + max_negative_gradient3 g) /\
  postponed_positive_gradient1_l s' =
    postponed_positive_gradient1_l s +
    num_ik_pairs c * (min_positive_gradient1 g + min_positive_gradient3 g) /\
  postponed_positive_gradient1_e s' =
    postponed_positive_gradient1_e s +
    num_ik_pairs c * half *
    (min_positive_gradient1 g + max_positive_gradient1 g +
     min_positive_gradient3 g + max_positive_gradient3 g).
Proof. cbv zeta. scalars. Qed.

Lemma Prune_node2_body_scalars (h : Heap D B) (p : ptr) :
  let s := stat (h p) in
  let s' := stat (execute p (Prune_node2_body tree_nodes g c) h p) in
  postponed_negative_gradient1_e s' =
    postponed_negative_gradient1_e s +
    num_ij_pairs c * half *
    (min_negative_gradient2 g + max_negative_gradient2 g +
     min_negative_gradient3 g + max_negative_gradient3 g) /\
  postponed_negative_gradient1_u s' =
    postponed_negative_gradient1_u s +
    num_ij_pairs c * (max_negative_gradient2 g + max_negative_gradient3 g) /\
  postponed_positive_gradient1_l s' =
    postponed_positive_gradient1_l s +
    num_ij_pairs c * (min_positive_gradient2 g + min_positive_gradient3 g) /\
  postponed_positive_gradient1_e s' =
    postponed_positive_gradient1_e s +
    num_ij_pairs c * half *
    (min_positive_gradient2 g + max_positive_gradient2 g +
     min_positive_gradient3 g + max_positive_gradient3 g).
Proof. cbv zeta. scalars. Qed.

End ScalarFacts.

Section OrderedAccumulators.
Context {B : Type}.
Variable tree_nodes : ArrayList3 ptr.
Variable g : GradientBounds Q.
Variable c : PairCounts Q.
Hypothesis g_ordered : bounds_ordered g.
Hypothesis c_nonneg : counts_nonneg c.

Lemma midpoint_below_upper (e u n a b a' b' : Q) :
  (e <= u -> 0 <= n -> a <= b -> a' <= b' ->
   e + n * (1 # 2) * (a + b + a' + b') <= u + n * (b + b'))%Q.
Proof. intros. nra. Qed.

Lemma midpoint_above_lower (l e n a b a' b' : Q) :
  (l <= e -> 0 <= n -> a <= b -> a' <= b' ->
   l + n * (a + a') <= e + n * (1 # 2) * (a + b + a' + b'))%Q.
Proof. intros. nra. Qed.

Lemma Prune_block_keeps_order (s : slot) (h : Heap Q B) :
  (forall q, postponed_ordered (stat (h q))) ->
  forall q, postponed_ordered (stat (Prune_block tree_nodes g c s h q)).
Proof.
  intros O q.
  destruct g_ordered as [G1 [G2 [G3 [G4 [G5 G6]]]]].
  destruct c_nonneg as [Cjk [Cik Cij]].
  destruct (Pos.eq_dec q (Prune_target tree_nodes s)) as [-> | N].
  2:{ rewrite Prune_block_other by exact N. apply O. }
  destruct (O (Prune_target tree_nodes s)) as [On Op].
  destruct s; cbn [Prune_block Prune_target].
  - unfold Prune_node0.
    destruct (Prune_node0_body_scalars tree_nodes g c h (at0 tree_nodes))
      as [E1 [E2 [E3 E4]]].
    cbv zeta in E1, E2, E3, E4. unfold postponed_ordered.
    rewrite E1, E2, E3, E4. cbn [add mul half exactQ].
    split; [apply midpoint_below_upper | apply midpoint_above_lower];
      assumption.
  - unfold Prune_node1.
    destruct (negb _); [|split; assumption].
    destruct (Prune_node1_body_scalars tree_nodes g c h (at1 tree_nodes))
      as [E1 [E2 [E3 E4]]].
    cbv zeta in E1, E2, E3, E4. unfold postponed_ordered.
    rewrite E1, E2, E3, E4. cbn [add mul half exactQ].
    split; [apply midpoint_below_upper | apply midpoint_above_lower];
      assumption.
  - unfold Prune_node2.
    destruct (negb _); [|split; assumption].
    destruct (Prune_node2_body_scalars tree_nodes g c h (at2 tree_nodes))
      as [E1 [E2 [E3 E4]]].
    cbv zeta in E1, E2, E3, E4. unfold postponed_ordered.
    rewrite E1, E2, E3, E4. cbn [add mul half exactQ].
    split; [apply midpoint_below_upper | apply midpoint_above_lower];
      assumption.
Qed.

End OrderedAccumulators.



(** ** The pruning test in exact arithmetic *)

Section ExactPrunable.
Context {B : Type}.
Local Open Scope Q_scope.
Variable h : Heap Q B.
Variable tree_nodes : ArrayList3 ptr.
Variable c : PairCounts Q.
Variable relative_error total : Q.

Lemma inject_Z_nonneg (z : Z) : (0 <= z)%Z -> 0 <= inject_Z z.
Proof. intros Hz. unfold Qle. simpl. lia. Qed.

Lemma within_budget_of_smaller (x x' b : Q) :
  x' <= x -> Qle_bool x b = true -> Qle_bool x' b = true.
Proof.
  intros Hx Hb. apply Qle_bool_iff. apply Qle_bool_iff in Hb.
  eapply Qle_trans; eassumption.
Qed.

Lemma own_error_le (x x' y y' : Q) : x' <= x -> y' <= y -> x' + y' <= x + y.
Proof. intros. lra. Qed.

Lemma cross_error_le (n m : Z) (l l' x x' y y' : Q) :
  (0 <= n)%Z -> (0 <= m)%Z -> 0 <= l -> 0 <= l' -> x' <= x -> y' <= y ->
  inject_Z n * l * x' + inject_Z m * l' * y' <=
  inject_Z n * l * x + inject_Z m * l' * y.
Proof.
  intros Hn Hm Hl Hl' Hx Hy.
  pose proof (Qmult_le_0_compat _ _ (inject_Z_nonneg Hn) Hl).
  pose proof (Qmult_le_0_compat _ _ (inject_Z_nonneg Hm) Hl').
  nra.
Qed.

Section Antitone.
Variable e e' : GradientErrors Q.
Hypothesis smaller : errors_le e' e.
Hypothesis counts_nonneg_nodes :
  forall p, In p [at0 tree_nodes; at1 tree_nodes; at2 tree_nodes] ->
    (0 <= count (h p))%Z /\ 0 <= l1_norm_coordinate_sum_ (stat (h p)).

Ltac smaller_lhs :=
  unfold first_node_test, second_node_test, third_node_test;
  cbn [leb add mul div fabs of_int exactQ];
  rewrite !andb_true_iff; intros [[[A1 A2] A3] A4];
  destruct smaller as [S1 [S2 [S3 [S4 [S5 S6]]]]];
  repeat split;
  (eapply within_budget_of_smaller; [|eassumption]);
  first [ apply own_error_le; assumption
        | apply cross_error_le;
          first [ assumption
                | apply counts_nonneg_nodes; simpl; tauto ] ].

Lemma first_node_test_antitone :
  first_node_test h tree_nodes e c relative_error total = true ->
  first_node_test h tree_nodes e' c relative_error total = true.
Proof. smaller_lhs. Qed.

Lemma second_node_test_antitone :
  second_node_test h tree_nodes e c relative_error total = true ->
  second_node_test h tree_nodes e' c relative_error total = true.
Proof. smaller_lhs. Qed.

Lemma third_node_test_antitone :
  third_node_test h tree_nodes e c relative_error total = true ->
  third_node_test h tree_nodes e' c relative_error total = true.
Proof. smaller_lhs. Qed.

End Antitone.

Section Tight.
Variable g : GradientBounds Q.
Hypothesis g_tight :
  max_negative_gradient1 g == min_negative_gradient1 g /\
  max_positive_gradient1 g == min_positive_gradient1 g /\
  max_negative_gradient2 g == min_negative_gradient2 g /\
  max_positive_gradient2 g == min_positive_gradient2 g /\
  max_negative_gradient3 g == min_negative_gradient3 g /\
  max_positive_gradient3 g == min_positive_gradient3 g.
Hypothesis tolerance_nonneg : 0 <= relative_error.
Hypothesis total_positive : 0 < total.
Hypothesis c_nonneg : counts_nonneg c.
Hypothesis positive_bounds_nonneg :
  forall p, In p [at0 tree_nodes; at1 tree_nodes; at2 tree_nodes] ->
    0 <= positive_gradient1_l (stat (h p)) +
         postponed_positive_gradient1_l (stat (h p)).

Lemma own_budget_nonneg (F : Q) :
  0 <= F -> 0 <= (relative_error / total) * F.
Proof.
  intros HF. apply Qmult_le_0_compat; [|exact HF].
  unfold Qdiv. apply Qmult_le_0_compat; [exact tolerance_nonneg|].
  apply Qinv_le_0_compat. apply Qlt_le_weak. exact total_positive.
Qed.

Lemma cross_budget_nonneg (n L : Q) :
  0 <= n -> 0 <= L -> 0 <= relative_error * n / total * L.
Proof.
  intros Hn HL. apply Qmult_le_0_compat; [|exact HL].
  unfold Qdiv. apply Qmult_le_0_compat.
  - apply Qmult_le_0_compat; assumption.
  - apply Qinv_le_0_compat. apply Qlt_le_weak. exact total_positive.
Qed.

Lemma own_vanishes (mx mn mx' mn' b : Q) :
  mx == mn -> mx' == mn' -> 0 <= b ->
  Qle_bool ((mx - mn) * (1 # 2) + (mx' - mn') * (1 # 2)) b = true.
Proof. intros E E' Hb. apply Qle_bool_iff. lra. Qed.

Lemma cross_vanishes (a a' mx mn mx' mn' b : Q) :
  mx == mn -> mx' == mn' -> 0 <= b ->
  Qle_bool (a * ((mx - mn) * (1 # 2)) + a' * ((mx' - mn') * (1 # 2))) b
  = true.
Proof.
  intros E E' Hb. apply Qle_bool_iff.
  assert ((mx - mn) * (1 # 2) == 0) as -> by lra.
  assert ((mx' - mn') * (1 # 2) == 0) as -> by lra.
  lra.
Qed.

Ltac nonneg_budget :=
  first
    [ apply own_budget_nonneg;
      first [apply Qabs_nonneg
            |apply positive_bounds_nonneg; simpl; tauto]
    | apply cross_budget_nonneg;
      [apply c_nonneg
      |first [apply L1Norm_nonneg
             |apply Qplus_nonneg; apply L1Norm_nonneg]] ].

Ltac tight_test :=
  unfold first_node_test, second_node_test, third_node_test,
    ComputeGradientComponentError_;
  cbn [leb add sub mul div fabs of_int half exactQ
       negative_gradient1_error positive_gradient1_error
       negative_gradient2_error positive_gradient2_error
       negative_gradient3_error positive_gradient3_error];
  destruct g_tight as [T1 [T2 [T3 [T4 [T5 T6]]]]];
  rewrite !andb_true_iff; repeat split;
  first [ apply own_vanishes; [assumption | assumption | nonneg_budget]
        | apply cross_vanishes; [assumption | assumption | nonneg_budget] ].

Lemma first_node_test_tight :
  first_node_test h tree_nodes (ComputeGradientComponentError_ g) c
    relative_error total = true.
Proof. tight_test. Qed.

Lemma second_node_test_tight :
  second_node_test h tree_nodes (ComputeGradientComponentError_ g) c
    relative_error total = true.
Proof. tight_test. Qed.

Lemma third_node_test_tight :
  third_node_test h tree_nodes (ComputeGradientComponentError_ g) c
    relative_error total = true.
Proof. tight_test. Qed.

End Tight.

End ExactPrunable.

(** X10. In exact arithmetic, with counts and L1 norms of the coordinate
    sums that are not negative, a triple that [Prunable_] accepts is still
    accepted when any of the six component errors is made smaller:
    tighter bounds never lose a prune. *)
Theorem Prunable_accepts_smaller_errors (B : Type) (h : Heap Q B)
    (tree_nodes : ArrayList3 ptr) (e e' : GradientErrors Q)
    (c : PairCounts Q) (relative_error total : Q) :
  errors_le e' e ->
  (forall p, In p [at0 tree_nodes; at1 tree_nodes; at2 tree_nodes] ->
     (0 <= count (h p))%Z /\
     (0 <= l1_norm_coordinate_sum_ (stat (h p)))%Q) ->
  Prunable_ h tree_nodes e c relative_error total = true ->
  Prunable_ h tree_nodes e' c relative_error total = true.
Proof.
  intros S N.
  rewrite !Prunable_verdicts, !andb_true_iff.
  unfold slot2_verdict, slot1_verdict, slot0_verdict.
  intros [[T0 T1] T2].
  pose proof (@first_node_test_antitone B h tree_nodes c relative_error
                total e e' S N) as M0.
  pose proof (@second_node_test_antitone B h tree_nodes c relative_error
                total e e' S N) as M1.
  pose proof (@third_node_test_antitone B h tree_nodes c relative_error
                total e e' S N) as M2.
  destruct (Pos.eqb (at1 tree_nodes) (at0 tree_nodes));
    destruct (Pos.eqb (at2 tree_nodes) (at1 tree_nodes)); auto.
Qed.

Lemma Prunable_accepts_smaller_errors_witness :
  Prunable_ line_heapQ slots_ABC tenth_errorsQ line_countsQ 1%Q 1%Q = true.
Proof.
  apply (@Prunable_accepts_smaller_errors unit line_heapQ slots_ABC
           small_errorsQ tenth_errorsQ line_countsQ 1%Q 1%Q).
  - unfold errors_le. vm_compute. repeat split; discriminate.
  - intros p [<- | [<- | [<- | []]]]; vm_compute; split; discriminate.
  - vm_compute. reflexivity.
Defined.

(** X11. In exact arithmetic, a triple whose twelve bounds are tight (each
    upper bound equal to its lower bound) has zero errors and is accepted
    by [Prunable_] at every tolerance that is not negative, for a positive
    normalizer, pair counts that are not negative and regions whose lower
    bound of the positive gradient is not negative. *)
Theorem Prunable_accepts_tight_bounds (B : Type) (h : Heap Q B)
    (tree_nodes : ArrayList3 ptr) (g : GradientBounds Q)
    (c : PairCounts Q) (relative_error total : Q) :
  (max_negative_gradient1 g == min_negative_gradient1 g /\
   max_positive_gradient1 g == min_positive_gradient1 g /\
   max_negative_gradient2 g == min_negative_gradient2 g /\
   max_positive_gradient2 g == min_positive_gradient2 g /\
   max_negative_gradient3 g == min_negative_gradient3 g /\
   max_positive_gradient3 g == min_positive_gradient3 g)%Q ->
  (0 <= relative_error)%Q -> (0 < total)%Q -> counts_nonneg c ->
  (forall p, In p [at0 tree_nodes; at1 tree_nodes; at2 tree_nodes] ->
     (0 <= positive_gradient1_l (stat (h p)) +
           postponed_positive_gradient1_l (stat (h p)))%Q) ->
  Prunable_ h tree_nodes (ComputeGradientComponentError_ g) c
    relative_error total = true.
Proof.
  intros T R P C N.
  rewrite Prunable_verdicts.
  unfold slot2_verdict, slot1_verdict, slot0_verdict.
  rewrite (@first_node_test_tight B h tree_nodes c relative_error total g
             T R P C N).
  rewrite (@second_node_test_tight B h tree_nodes c relative_error total g
             T R P C N).
  rewrite (@third_node_test_tight B h tree_nodes c relative_error total g
             T R P C N).
  destruct (Pos.eqb (at1 tree_nodes) (at0 tree_nodes));
    destruct (Pos.eqb (at2 tree_nodes) (at1 tree_nodes)); reflexivity.
Qed.

Lemma Prunable_accepts_tight_bounds_witness :
  Prunable_ line_heapQ slots_AAB
    (ComputeGradientComponentError_ tight_boundsQ) line_countsQ 0%Q 1%Q
  = true.
Proof.
  apply Prunable_accepts_tight_bounds.
  - vm_compute. repeat split; reflexivity.
  - vm_compute. discriminate.
  - vm_compute. reflexivity.
  - unfold counts_nonneg. vm_compute. repeat split; discriminate.
  - intros p [<- | [<- | [<- | []]]]; vm_compute; discriminate.
Defined.

(** ** Signs of the pair counts *)

Section PairCountSigns.
Context {B : Type}.
Local Open Scope Q_scope.

Lemma BinomialCoefficient_nonneg (n k : Z) :
  0 <= BinomialCoefficient (D:=Q) n k.
Proof.
  unfold BinomialCoefficient.
  destruct ((k <? 0)%Z || (n <? k)%Z)%bool; cbn [of_int exactQ];
    apply inject_Z_nonneg; lia.
Qed.


End PairCountSigns.


(** ** The gradient bounds in exact real arithmetic *)

Section RealGradients.
Import Rdefinitions Lra.
Local Open Scope R_scope.

Ltac positive :=
  repeat first [ assumption | apply RIneq.Rmult_lt_0_compat | apply RIneq.Rlt_le ].

Lemma inverse_antitone (x y : R) : 0 < x -> x <= y -> 0 < / y <= / x.
Proof.
  intros Hx Hxy. split.
  - apply RIneq.Rinv_0_lt_compat. lra.
  - apply RIneq.Rinv_le_contravar; assumption.
Qed.

Lemma product_monotone (a b c d : R) :
  0 < a <= c -> 0 < b <= d -> 0 < a * b <= c * d.
Proof.
  intros [Ha Hac] [Hb Hbd]. split.
  - apply RIneq.Rmult_lt_0_compat; assumption.
  - apply RIneq.Rmult_le_compat; lra.
Qed.

Lemma sqrt_monotone (a c : R) :
  0 < a <= c -> 0 < R_sqrt.sqrt a <= R_sqrt.sqrt c.
Proof.
  intros [Ha Hac]. split.
  - apply R_sqrt.sqrt_lt_R0. exact Ha.
  - apply R_sqrt.sqrt_le_1; lra.
Qed.

Lemma quotient_antitone (a c : R) : 0 < a <= c -> 0 < / c <= / a.
Proof. intros [Ha Hac]. apply inverse_antitone; assumption. Qed.


Lemma factor_antitone (c a b : R) :
  0 < c -> 0 < a <= b ->
  0 < 3 * c / (8 * b) <= 3 * c / (8 * a).
Proof.
  intros Hc [Ha Hab].
  assert (0 < / (8 * b) <= / (8 * a)) as [I1 I2]
    by (apply inverse_antitone; lra).
  unfold Rdiv. split.
  - apply RIneq.Rmult_lt_0_compat; lra.
  - apply RIneq.Rmult_le_compat_l; lra.
Qed.

Lemma term_antitone (c p q : R) :
  0 <= c -> 0 < p <= q -> 0 <= c / q <= c / p.
Proof.
  intros Hc [Hp Hpq].
  destruct (inverse_antitone Hp Hpq) as [I1 I2].
  unfold Rdiv. split.
  - apply RIneq.Rmult_le_pos; lra.
  - apply RIneq.Rmult_le_compat_l; assumption.
Qed.

Lemma scaled_term_monotone (a b p q : R) :
  0 < a <= b -> 0 < p <= q -> 0 <= 5 * a / q <= 5 * b / p.
Proof.
  intros [Ha Hab] [Hp Hpq].
  destruct (inverse_antitone Hp Hpq) as [I1 I2].
  unfold Rdiv. split.
  - apply RIneq.Rmult_le_pos; lra.
  - apply RIneq.Rmult_le_compat; lra.
Qed.

Lemma negative_part_ordered (m M p1 p2 p3 p4 p5 p6 p7 p8
                                  q1 q2 q3 q4 q5 q6 q7 q8 : R) :
  0 < m <= M ->
  0 < p1 <= q1 -> 0 < p2 <= q2 -> 0 < p3 <= q3 -> 0 < p4 <= q4 ->
  0 < p5 <= q5 -> 0 < p6 <= q6 -> 0 < p7 <= q7 -> 0 < p8 <= q8 ->
  M * (-8 / p1 - 1 / p2 - 1 / p3 - 1 / p4 - 3 / p5 - 3 / p6 - 5 / p7
       - 5 / p8) <=
  m * (-8 / q1 - 1 / q2 - 1 / q3 - 1 / q4 - 3 / q5 - 3 / q6 - 5 / q7
       - 5 / q8) /\
  m * (-8 / q1 - 1 / q2 - 1 / q3 - 1 / q4 - 3 / q5 - 3 / q6 - 5 / q7
       - 5 / q8) <= 0.
Proof.
  intros [Hm HmM] T1 T2 T3 T4 T5 T6 T7 T8.
  apply (@term_antitone 8) in T1; [|lra].
  apply (@term_antitone 1) in T2; [|lra].
  apply (@term_antitone 1) in T3; [|lra].
  apply (@term_antitone 1) in T4; [|lra].
  apply (@term_antitone 3) in T5; [|lra].
  apply (@term_antitone 3) in T6; [|lra].
  apply (@term_antitone 5) in T7; [|lra].
  apply (@term_antitone 5) in T8; [|lra].
  assert (0 <= 8 / q1 + 1 / q2 + 1 / q3 + 1 / q4 + 3 / q5 + 3 / q6 + 5 / q7
               + 5 / q8 <=
               8 / p1 + 1 / p2 + 1 / p3 + 1 / p4 + 3 / p5 + 3 / p6 + 5 / p7
               + 5 / p8) as [HA' HA] by lra.
  pose proof (RIneq.Rmult_le_compat _ _ _ _ (RIneq.Rlt_le _ _ Hm) HA' HmM HA).
  pose proof (RIneq.Rmult_le_pos _ _ (RIneq.Rlt_le _ _ Hm) HA').
  unfold Rdiv in *.
  split; lra.
Qed.

Lemma positive_part_ordered (m M a2 b2 a3 b3 p1 p2 p3 q1 q2 q3 : R) :
  0 < m <= M -> 0 < a2 <= b2 -> 0 < a3 <= b3 ->
  0 < p1 <= q1 -> 0 < p2 <= q2 -> 0 < p3 <= q3 ->
  0 <= m * (5 * a2 / q1 + 5 * a3 / q2 + 6 / q3) /\
  m * (5 * a2 / q1 + 5 * a3 / q2 + 6 / q3) <=
  M * (5 * b2 / p1 + 5 * b3 / p2 + 6 / p3).
Proof.
  intros [Hm HmM] A2 A3 T1 T2 T3.
  pose proof (scaled_term_monotone A2 T1) as U1.
  pose proof (scaled_term_monotone A3 T2) as U2.
  apply (@term_antitone 6) in T3; [|lra].
  split.
  - apply RIneq.Rmult_le_pos; lra.
  - apply RIneq.Rmult_le_compat; lra.
Qed.

Ltac ordered_products :=
  repeat first [ eassumption | apply product_monotone ].

Lemma gradient_sign_ordered (distmat : Matrix R) (index_orders : ArrayList3 Z) :
  (forall ab, In ab [(at0 index_orders, at1 index_orders);
                     (at0 index_orders, at2 index_orders);
                     (at1 index_orders, at2 index_orders)] ->
     0 < distmat (Z.min (fst ab) (snd ab)) (Z.max (fst ab) (snd ab)) <=
         distmat (Z.max (fst ab) (snd ab)) (Z.min (fst ab) (snd ab))) ->
  sign_ordered (gradient_ distmat index_orders true true).
Proof.
  intros Hd.
  assert (H1 := Hd _ (or_introl eq_refl)).
  assert (H2 := Hd _ (or_intror (or_introl eq_refl))).
  assert (H3 := Hd _ (or_intror (or_intror (or_introl eq_refl)))).
  clear Hd. cbn [fst snd] in H1, H2, H3.
  unfold gradient_, sign_ordered, Sqr.
  cbn [fill mul div add sub of_int sqrt exactR exactR_libm
       AXILROD_TELLER_COEFF].
  set (d1 := distmat (Z.min (at0 index_orders) (at1 index_orders)) _) in *.
  set (D1 := distmat (Z.max (at0 index_orders) (at1 index_orders)) _) in *.
  set (d2 := distmat (Z.min (at0 index_orders) (at2 index_orders)) _) in *.
  set (D2 := distmat (Z.max (at0 index_orders) (at2 index_orders)) _) in *.
  set (d3 := distmat (Z.min (at1 index_orders) (at2 index_orders)) _) in *.
  set (D3 := distmat (Z.max (at1 index_orders) (at2 index_orders)) _) in *.
  clearbody d1 D1 d2 D2 d3 D3.
  assert (S1 := sqrt_monotone H1).
  assert (S2 := sqrt_monotone H2).
  assert (S3 := sqrt_monotone H3).
  assert (0 < 1 / IZR (10 ^ 18)) as Hc
    by (apply RIneq.Rdiv_lt_0_compat; [lra | apply RIneq.IZR_lt; reflexivity]).
  assert (F := factor_antitone Hc S1).
  set (c := 1 / IZR (10 ^ 18)) in *. clearbody c.
  set (s1 := R_sqrt.sqrt d1) in *. set (t1 := R_sqrt.sqrt D1) in *.
  set (s2 := R_sqrt.sqrt d2) in *. set (t2 := R_sqrt.sqrt D2) in *.
  set (s3 := R_sqrt.sqrt d3) in *. set (t3 := R_sqrt.sqrt D3) in *.
  clearbody s1 t1 s2 t2 s3 t3.
  apply and_assoc. split.
  - apply negative_part_ordered; ordered_products.
  - apply positive_part_ordered; ordered_products.
Qed.

Context {B : Type} `{Bound R B}.

Lemma distmat_table_real (k : Kernel R) (h : Heap R B)
    (tree_nodes : ArrayList3 ptr) (ij : Z * Z) :
  In ij upper_pairs ->
  distmat_ (EvalMinMaxSquaredDistances k h tree_nodes) (fst ij) (snd ij) =
    MinDistanceSq (bound (h (at_ tree_nodes (fst ij))))
                  (bound (h (at_ tree_nodes (snd ij)))) /\
  distmat_ (EvalMinMaxSquaredDistances k h tree_nodes) (snd ij) (fst ij) =
    MaxDistanceSq (bound (h (at_ tree_nodes (fst ij))))
                  (bound (h (at_ tree_nodes (snd ij)))).
Proof.
  intros [<- | [<- | [<- | []]]]; split; reflexivity.
Qed.

Lemma Eval_gradients_calls (k : Kernel R) :
  let g := snd (Eval_gradients k) in
  (min_negative_gradient1 g, max_negative_gradient1 g,
   min_positive_gradient1 g, max_positive_gradient1 g) =
    gradient_ (distmat_ k) (MkArrayList3 0 1 2)%Z true true /\
  (min_negative_gradient2 g, max_negative_gradient2 g,
   min_positive_gradient2 g, max_positive_gradient2 g) =
    gradient_ (distmat_ k) (MkArrayList3 0 2 1)%Z true true /\
  (min_negative_gradient3 g, max_negative_gradient3 g,
   min_positive_gradient3 g, max_positive_gradient3 g) =
    gradient_ (distmat_ k) (MkArrayList3 2 1 0)%Z true true.
Proof. repeat split. Qed.

(** X13. In exact real arithmetic, when every pair of the three regions is
    at a positive minimum squared distance that does not exceed the maximum
    one, the twelve bounds [Eval] computes are in order around zero: for
    each of the three components, minimum negative <= maximum negative <= 0
    <= minimum positive <= maximum positive. *)
Theorem Eval_gradients_signed (k : Kernel R) (h : Heap R B)
    (tree_nodes : ArrayList3 ptr) :
  (forall ij, In ij upper_pairs ->
     0 < MinDistanceSq (bound (h (at_ tree_nodes (fst ij))))
                       (bound (h (at_ tree_nodes (snd ij)))) <=
         MaxDistanceSq (bound (h (at_ tree_nodes (fst ij))))
                       (bound (h (at_ tree_nodes (snd ij))))) ->
  bounds_signed
    (snd (Eval_gradients (EvalMinMaxSquaredDistances k h tree_nodes))).
Proof.
  intros Hb.
  assert (forall ij, In ij upper_pairs ->
            0 < distmat_ (EvalMinMaxSquaredDistances k h tree_nodes)
                  (fst ij) (snd ij) <=
                distmat_ (EvalMinMaxSquaredDistances k h tree_nodes)
                  (snd ij) (fst ij)) as Ht.
  { intros ij Hij. destruct (@distmat_table_real k h tree_nodes ij Hij) as [-> ->].
    apply Hb. exact Hij. }
  clear Hb.
  destruct (Eval_gradients_calls (EvalMinMaxSquaredDistances k h tree_nodes))
    as [E1 [E2 E3]].
  unfold bounds_signed. rewrite E1, E2, E3.
  split; [|split]; apply gradient_sign_ordered;
    intros ab [<- | [<- | [<- | []]]];
    first [ apply (Ht (0, 1)%Z) | apply (Ht (0, 2)%Z) | apply (Ht (1, 2)%Z) ];
    unfold upper_pairs; simpl; tauto.
Qed.

End RealGradients.

Lemma Eval_gradients_signed_witness :
  bounds_signed
    (snd (Eval_gradients
            (EvalMinMaxSquaredDistances blank_kernelR shell_heap
               (MkArrayList3 1 2 3)%positive))).
Proof.
  apply Eval_gradients_signed.
  intros ij [<- | [<- | [<- | []]]]; cbn; Lra.lra.
Defined.

(** ** The sampled variances in exact real arithmetic *)

Section RealSampling.
Import Rdefinitions Lra.
Local Open Scope R_scope.
Context {B : Type}.
Variable RandInt : nat -> Z -> Z -> Z.
Variable data : Z -> Vector R.
Variable h : Heap R B.
Variable nodes : ArrayList3 ptr.
Variable z_score : R.

Lemma sum_dominated_step (n : Z) (sum squared_sum x : R) :
  (0 <= n)%Z -> sum_dominated n sum squared_sum ->
  sum_dominated (n + 1) (sum + x) (squared_sum + x * x).
Proof.
  unfold sum_dominated. intros Hn [HQ HS].
  rewrite RIneq.plus_IZR.
  pose proof (RIneq.IZR_le _ _ Hn) as HN.
  set (N := IZR n) in *. clearbody N.
  split; [nra|].
  destruct (RIneq.Req_dec_T N 0) as [-> | NZ].
  - assert (sum = 0) by nra. subst sum. nra.
  - assert (0 < N) by lra.
    pose proof (RIneq.Rle_0_sqr (sum - N * x)) as Sq.
    unfold RIneq.Rsqr in Sq.
    assert (0 <= N * (squared_sum + N * (x * x) - 2 * sum * x)) by nra.
    assert (0 <= squared_sum + N * (x * x) - 2 * sum * x) by nra.
    nra.
Qed.

Lemma MonteCarloEval_body_dominated (s : Sampler) :
  (0 <= current_num_samples s)%Z ->
  sums_dominated (current_num_samples s) (running_sums s) ->
  let s' := MonteCarloEval_body RandInt data h nodes z_score s in
  (0 <= current_num_samples s')%Z /\
  sums_dominated (current_num_samples s') (running_sums s').
Proof.
  intros Hn Hs. cbv zeta. unfold MonteCarloEval_body.
  destruct (negb _).
  - cbn [current_num_samples running_sums]. split; assumption.
  - destruct (EvalGradients _ _ _ _ _ _ _) as [[[k1 g1] g2] g3].
    destruct g1 as [[[a1 ?] b1] ?], g2 as [[[a2 ?] b2] ?],
             g3 as [[[a3 ?] b3] ?].
    unfold UpdateStatistics_.
    cbn [current_num_samples running_sums
         negative_gradient1 positive_gradient1 negative_gradient2
         positive_gradient2 negative_gradient3 positive_gradient3].
    split; [lia|].
    destruct Hs as [D1 [D2 [D3 [D4 [D5 D6]]]]].
    unfold sums_dominated.
    cbn [negative_gradient1_sum negative_gradient1_squared_sum
         positive_gradient1_sum positive_gradient1_squared_sum
         negative_gradient2_sum negative_gradient2_squared_sum
         positive_gradient2_sum positive_gradient2_squared_sum
         negative_gradient3_sum negative_gradient3_squared_sum
         positive_gradient3_sum positive_gradient3_squared_sum
         add mul exactR].
    split; [|split; [|split; [|split; [|split]]]];
      apply sum_dominated_step; assumption.
Qed.

Lemma MonteCarloEval_loop_dominated (fuel : nat) (s s' : Sampler) :
  (0 <= current_num_samples s)%Z ->
  sums_dominated (current_num_samples s) (running_sums s) ->
  MonteCarloEval_loop RandInt data h nodes z_score fuel s = Some s' ->
  sums_dominated (current_num_samples s') (running_sums s').
Proof.
  revert s. induction fuel as [|fuel IH]; intros s Hn Hs; simpl;
    [discriminate|].
  destruct (MonteCarloEval_body_dominated s Hn Hs) as [Hn' Hs'].
  destruct (num_sample_trials_remaining
              (MonteCarloEval_body RandInt data h nodes z_score s) >? 0)%Z.
  - apply IH; assumption.
  - intros [= <-]. exact Hs'.
Qed.

Lemma error_of_dominated (sum squared_sum : R) :
  sum_dominated 25 sum squared_sum ->
  error_of_variance z_score
    (z_score *
     R_sqrt.sqrt (1 / (IZR 25 - 1) * (squared_sum - sum * sum / IZR 25)))
    25 sum squared_sum.
Proof.
  unfold sum_dominated, error_of_variance, sample_variance.
  intros [HQ HS].
  assert (0 <= (squared_sum - sum * sum / 25) / (25 - 1)) as V.
  { unfold Rdiv. nra. }
  split; [exact V|].
  replace (1 / (25 - 1) * (squared_sum - sum * sum / 25))
    with ((squared_sum - sum * sum / 25) / (25 - 1)) by (unfold Rdiv; lra).
  set (v := (squared_sum - sum * sum / 25) / (25 - 1)) in *.
  pose proof (R_sqrt.sqrt_sqrt v V) as E.
  set (r := R_sqrt.sqrt v) in *. clearbody r v. nra.
Qed.


End RealSampling.


(** ** The L1 norm *)

Section NormFacts.
Local Open Scope Q_scope.

Lemma L1Norm_from (v : Vector Q) (a : Q) :
  fold_left (fun length x => length + Qabs x) v a ==
  a + fold_left (fun length x => length + Qabs x) v 0.
Proof.
  revert a. induction v as [|x v IH]; intros a; cbn [fold_left].
  - ring.
  - rewrite (IH (a + Qabs x)), (IH (0 + Qabs x)). ring.
Qed.

Lemma L1Norm_cons (x : Q) (v : Vector Q) :
  L1Norm_ (x :: v) == Qabs x + L1Norm_ v.
Proof.
  unfold L1Norm_. cbn [fold_left add fabs of_int exactQ].
  rewrite L1Norm_from. change (inject_Z 0) with 0. ring.
Qed.

Lemma L1Norm_app (u v : Vector Q) :
  L1Norm_ (u ++ v) == L1Norm_ u + L1Norm_ v.
Proof.
  induction u as [|x u IH]; cbn [app].
  - unfold L1Norm_ at 2. cbn. ring.
  - rewrite !L1Norm_cons, IH. ring.
Qed.

End NormFacts.
